(** * Letter ingestion pipeline: listing parser, detail fetcher, orchestrator

    A shallow embedding of
      - [app/services/scraper.py]  (ScraperService, LetterData),
      - [app/db/repository.py]     (DatabaseRepository),
      - [app/models/schemas.py]    (FetchResponse, FetchMoreRequest),
      - [app/main.py]              (the endpoints),
    followed by the properties of the pipeline.

    Conventions.
      - A Python [str] is the sequence of its characters; the character
        type is [ascii] (code points below 256), on which [\d] is [0-9]
        and [str.lower] moves [A-Z] and the Latin-1 capitals by 32.
      - A Python [int] is a [Z]; [sqlite_int] tells the ones that fit
        the 64 bits of a SQLite integer.
      - A connection that [insert_letter] leaves open keeps its
        transaction: the write lock it holds is part of the [State].
      - A call that may raise returns a [result]; [try]/[except] is
        written out where the source has it.
      - The third-party calls (httpx, BeautifulSoup) are not re-implemented:
        what they return, or that they raise, is data of the [World]. *)

From Stdlib Require Import ZArith String Ascii List Lia.
From Stdlib Require Import Numbers.DecimalString.
From Stdlib Require Numbers.DecimalZ.
From stdpp Require Import base gmap strings list.

Local Open Scope string_scope.
Local Open Scope Z_scope.

(** ** Exceptions *)

Inductive exn : Type :=
  | IntegrityError        (* sqlite3.IntegrityError *)
  | OperationalError      (* sqlite3.OperationalError: database is locked *)
  | OverflowError         (* Python int too large to convert to SQLite INTEGER *)
  | HTTPError             (* httpx.HTTPError and its subclasses *)
  | OtherException.       (* any other subclass of Exception *)

Inductive result (A : Type) : Type :=
  | Ok (a : A)
  | Raise (e : exn).
Arguments Ok {A} a.
Arguments Raise {A} e.

Definition rbind {A B} (r : result A) (k : A -> result B) : result B :=
  match r with
  | Ok a => k a
  | Raise e => Raise e
  end.

(** ** Python string primitives *)

Module Py.

(** [s.startswith(p)] *)
Definition startswith (s p : string) : bool := String.prefix p s.

(** [sub in s] *)
Fixpoint contains (s sub : string) : bool :=
  String.prefix sub s ||
  match s with
  | EmptyString => false
  | String _ s' => contains s' sub
  end.

(** [s.endswith(suf)] *)
Fixpoint endswith (s suf : string) : bool :=
  String.eqb s suf ||
  match s with
  | EmptyString => false
  | String _ s' => endswith s' suf
  end.

(** [len(s)] *)
Definition len (s : string) : Z := Z.of_nat (String.length s).

(** truth value of a [str]: non-empty *)
Definition truthy (s : string) : bool :=
  match s with
  | EmptyString => false
  | String _ _ => true
  end.

Definition lower_char (c : ascii) : ascii :=
  let n := nat_of_ascii c in
  if ((65 <=? n) && (n <=? 90) || (192 <=? n) && (n <=? 214)
      || (216 <=? n) && (n <=? 222))%nat
  then ascii_of_nat (n + 32)
  else c.

(** [s.lower()] *)
Fixpoint lower (s : string) : string :=
  match s with
  | EmptyString => EmptyString
  | String c s' => String (lower_char c) (lower s')
  end.

(** [\d] *)
Definition is_digit (c : ascii) : bool :=
  let n := nat_of_ascii c in ((48 <=? n) && (n <=? 57))%nat.

Definition is_slash (c : ascii) : bool := Ascii.eqb c "/".

(** [re.match(r'/(\d{4})/(\d{2})/', s)]: the pattern anchored at the
    start of [s]; the two groups on success. *)
Definition match_date_here (s : string) : option (string * string) :=
  match s with
  | String c0 (String y1 (String y2 (String y3 (String y4
      (String c5 (String m1 (String m2 (String c8 _)))))))) =>
      if is_slash c0 && is_digit y1 && is_digit y2 && is_digit y3
         && is_digit y4 && is_slash c5 && is_digit m1 && is_digit m2
         && is_slash c8
      then Some (String y1 (String y2 (String y3 (String y4 EmptyString))),
                 String m1 (String m2 EmptyString))
      else None
  | _ => None
  end.

(** [re.search(r'/(\d{4})/(\d{2})/', s)]: the leftmost position at which
    the pattern matches; [date_match.groups()] on success. *)
Fixpoint search_date (s : string) : option (string * string) :=
  match match_date_here s with
  | Some g => Some g
  | None =>
      match s with
      | EmptyString => None
      | String _ s' => search_date s'
      end
  end.

(** [s.rstrip('/')] *)
Fixpoint rstrip_slash (s : string) : string :=
  match s with
  | EmptyString => EmptyString
  | String c s' =>
      match rstrip_slash s' with
      | EmptyString => if is_slash c then EmptyString else String c EmptyString
      | r => String c r
      end
  end.

(** [f"{n}"] for an [int] *)
Definition str_of_int (n : Z) : string := NilZero.string_of_int (Z.to_int n).

End Py.

(** ** scraper.py: [LetterData] *)

Record LetterData : Type := {
  title : string;
  url : string;
  publication_date : string;
  summary : option string;
  content : string
}.

(** ** What BeautifulSoup returns for a listing page

    [soup.find_all('a', href=True)] is a list of anchors; of each anchor
    the parser uses three calls, of its container one, of the paragraph
    one. Each may raise. *)

Record Paragraph : Type := {
  p_get_text : result string          (* p_elem.get_text(strip=True) *)
}.

Record Container : Type := {
  find_p : result (option Paragraph)  (* parent.find('p') *)
}.

Record Anchor : Type := {
  get_href : result string;                 (* link.get('href', '') *)
  get_text : result string;                 (* link.get_text(strip=True) *)
  find_parent : result (option Container)   (* link.find_parent(['div', 'section', 'li']) *)
}.

(** ** scraper.py: [ScraperService.parse_letter_list] *)

Definition site_origin : string := "https://www.frbsf.org".

Definition boilerplate_titles : list string :=
  ["read the economic letter"; "economic letter"].

(** Lines 97-109 of the loop body: the href filter, the resolution to an
    absolute URL and the pagination filter. [Ok None] is [continue]. *)
Definition candidate_url (link : Anchor) : result (option string) :=
  rbind (get_href link) (fun url =>
  if negb (Py.truthy url) || negb (Py.contains url "economic-letter")
  then Ok None
  else
    let url := if negb (Py.startswith url "http")
               then site_origin ++ url else url in
    if Py.contains url "/page/"
       || Py.endswith url "/economic-letter/"
       || Py.endswith url "/economic-letter"
    then Ok None
    else Ok (Some url)).

(** Line 121: the title is rejected. *)
Definition title_rejected (title : string) : bool :=
  negb (Py.truthy title)
  || (Py.len title <? 10)
  || bool_decide (Py.lower title ∈ boilerplate_titles).

(** Lines 128-133: the publication date read off the URL. *)
Definition date_of_url (url : string) : string :=
  match Py.search_date url with
  | Some (year, month) => year ++ "-" ++ month ++ "-01"
  | None => ""
  end.

(** Lines 136-141. [p_elem != link] compares a [p] tag with an [a] tag and
    is always true; a tag is always truthy. *)
Definition find_summary (parent : option Container) : result (option string) :=
  match parent with
  | None => Ok None
  | Some par =>
      rbind (find_p par) (fun p_elem =>
      match p_elem with
      | None => Ok None
      | Some p => rbind (p_get_text p) (fun s => Ok (Some s))
      end)
  end.

(** Line 144: [summary or title]. *)
Definition summary_or_title (summary : option string) (title : string) : string :=
  match summary with
  | Some s => if Py.truthy s then s else title
  | None => title
  end.

(** Lines 117-153 of the loop body, once the URL has been marked as seen.
    [Ok None] is [continue]; [Ok (Some letter)] is [letters.append(letter)]. *)
Definition link_candidate (link : Anchor) (url : string) : result (option LetterData) :=
  rbind (get_text link) (fun title =>
  if title_rejected title then Ok None
  else
    rbind (find_parent link) (fun parent =>
    let publication_date := date_of_url url in
    rbind (find_summary parent) (fun summary =>
    let content := summary_or_title summary title in
    Ok (Some {| title := title; url := url;
                publication_date := publication_date;
                summary := summary; content := content |})))).

(** The body of the inner [try] (lines 97-153). [seen_urls] is mutated in
    place, so the set as it stands when the body ends or raises is returned
    next to the outcome. *)
Definition parse_link (seen_urls : gset string) (link : Anchor)
  : result (option LetterData) * gset string :=
  match candidate_url link with
  | Raise e => (Raise e, seen_urls)
  | Ok None => (Ok None, seen_urls)
  | Ok (Some url) =>
      if bool_decide (url ∈ seen_urls) then (Ok None, seen_urls)
      else (link_candidate link url, {[url]} ∪ seen_urls)
  end.

(** One iteration of [for link in all_links], with its
    [except Exception: continue]. *)
Definition parse_step (st : gset string * list LetterData) (link : Anchor)
  : gset string * list LetterData :=
  let '(seen_urls, letters) := st in
  match parse_link seen_urls link with
  | (Ok (Some letter), seen_urls') => (seen_urls', (letters ++ [letter])%list)
  | (Ok None, seen_urls') => (seen_urls', letters)
  | (Raise _, seen_urls') => (seen_urls', letters)
  end.

Definition parse_links (all_links : list Anchor) (st : gset string * list LetterData)
  : gset string * list LetterData :=
  fold_left parse_step all_links st.

Section Parser.

(** [BeautifulSoup(html, 'html.parser').find_all('a', href=True)] *)
Variable soup_links : string -> result (list Anchor).

(** The outer [try]: when building the soup raises, [letters] is still
    the empty list and is returned. *)
Definition parse_letter_list (html : string) : result (list LetterData) :=
  match soup_links html with
  | Ok all_links => Ok (snd (parse_links all_links (∅, [])))
  | Raise _ => Ok []
  end.

End Parser.

(** ** What BeautifulSoup returns for a detail page *)

Record Element : Type := {
  (* [for script in elem(['script', 'style']): script.decompose()] followed
     by [elem.get_text(separator='\n', strip=True)] *)
  text_without_scripts : result string
}.

Record ContentSoup : Type := {
  find_entry_content : result (option Element);  (* soup.find('div', class_='entry-content') *)
  find_article : result (option Element);        (* soup.find('article') *)
  find_main : result (option Element)            (* soup.find('main') *)
}.

(** [a or b] on two lookups that return a tag or [None]; [b] is evaluated
    only when [a] is [None]. *)
Definition or_else {A} (a b : result (option A)) : result (option A) :=
  rbind a (fun x => match x with Some _ => Ok x | None => b end).

(** ** repository.py: the [letters] table *)

Record Row : Type := {
  row_id : Z;
  row_title : string;
  row_url : string;
  row_publication_date : string;
  row_summary : option string;
  row_content : string
}.

Definition url_in_table (u : string) (table : list Row) : bool :=
  existsb (fun r => String.eqb (row_url r) u) table.

(** The row an [INSERT] of these five values adds; ids are handed out in
    sequence (the repository never deletes a letter). *)
Definition new_row (table : list Row) (title url publication_date : string)
           (summary : option string) (content : string) : Row :=
  {| row_id := Z.of_nat (length table) + 1;
     row_title := title; row_url := url;
     row_publication_date := publication_date;
     row_summary := summary; row_content := content |}.

(** ** The world around one invocation *)

Inductive Event : Type :=
  | GetPage (page : Z)          (* fetch_letters_page(page) was called *)
  | GetContent (url : string)   (* fetch_letter_content(url) was called *)
  | Inserted (row : Row)        (* insert_letter committed this row *)
  | InsertRejected (url : string)
      (* insert_letter hit the UNIQUE constraint and logged
         "Letter already exists with URL ..." *)
  | InsertBlocked (url : string).
      (* insert_letter could not get the write lock and logged
         "Error inserting letter: database is locked" *)

(** What goes on in the process while this request is suspended. *)
Inductive Other : Type :=
  | OtherInsert (l : LetterData)   (* another request calls insert_letter *)
  | Finalized.
      (* the interpreter finalises the connection that a rejected insert
         left open, which rolls its transaction back *)

Record World : Type := {
  frbsf_base_url : string;                          (* settings.frbsf_base_url *)
  (* [client.get(url)], [raise_for_status()], [response.text] *)
  client_get : string -> result string;
  (* [BeautifulSoup(html, 'html.parser').find_all('a', href=True)] *)
  soup_links : string -> result (list Anchor);
  (* [BeautifulSoup(html, 'html.parser')] of a detail page *)
  soup_content : string -> result ContentSoup;
  (* what goes on, in this order, while this request is suspended in its
     n-th [await] *)
  meanwhile : nat -> list Other
}.

Record State : Type := {
  table : list Row;         (* the [letters] table *)
  (* a connection left open by a rejected insert still holds its write
     transaction, and with it the lock that every other writer waits for *)
  locked : bool;
  awaits : nat;             (* network calls awaited so far *)
  trace : list Event        (* what this invocation has done, oldest first *)
}.

(** Computations that read and write the state and may raise; the state
    reached when an exception is raised is kept: every insert has been
    committed on its own. *)
Definition M (A : Type) : Type := State -> result A * State.

Definition ret {A} (a : A) : M A := fun st => (Ok a, st).

Definition bind {A B} (m : M A) (k : A -> M B) : M B :=
  fun st =>
    match m st with
    | (Ok a, st') => k a st'
    | (Raise e, st') => (Raise e, st')
    end.

Notation "'let*' x ':=' m 'in' k" := (bind m (fun x => k))
  (at level 10, x name, m at level 100, k at level 200).

Definition with_event (e : Event) (st : State) : State :=
  {| table := table st; locked := locked st; awaits := awaits st;
     trace := (trace st ++ [e])%list |}.

Definition with_row (row : Row) (st : State) : State :=
  {| table := (table st ++ [row])%list; locked := locked st; awaits := awaits st;
     trace := (trace st ++ [Inserted row])%list |}.

Definition with_lock (st : State) : State :=
  {| table := table st; locked := true; awaits := awaits st; trace := trace st |}.

Definition log (e : Event) : M unit := fun st => (Ok tt, with_event e st).

(** Another request's insert: it goes through when the URL is free and
    fails on its side otherwise. *)
Definition other_insert (table : list Row) (l : LetterData) : list Row :=
  if url_in_table (url l) table then table
  else (table ++ [new_row table (title l) (url l) (publication_date l)
                          (summary l) (content l)])%list.

(** One step of what goes on meanwhile, on the table and the lock. The
    other requests run the same [insert_letter]: theirs waits in vain while
    the lock is held, and a rejected one leaves its connection open. *)
Definition other_step (s : list Row * bool) (o : Other) : list Row * bool :=
  match o with
  | Finalized => (s.1, false)
  | OtherInsert l =>
      if s.2 then s
      else if url_in_table (url l) s.1 then (s.1, true)
      else (other_insert s.1 l, false)
  end.

Section Pipeline.

Variable w : World.

(** An [await] on the network: the other requests run. *)
Definition after_suspend (st : State) : State :=
  let s := fold_left other_step (meanwhile w (awaits st)) (table st, locked st) in
  {| table := s.1;
     locked := s.2;
     awaits := S (awaits st);
     trace := trace st |}.

Definition suspend : M unit := fun st => (Ok tt, after_suspend st).

(** *** repository.py *)

(** [DatabaseRepository.letter_exists] *)
Definition letter_exists (u : string) : M bool :=
  fun st => (Ok (url_in_table u (table st)), st).

(** [DatabaseRepository.insert_letter]. The [INSERT] opens a write
    transaction. While the lock is held elsewhere it waits for the busy
    timeout and raises [sqlite3.OperationalError]. The [UNIQUE] constraint
    on [url] raises [sqlite3.IntegrityError]; either exception is logged and
    raised again. Only the path that commits reaches [conn.close()]: after
    the [IntegrityError] the connection stays open inside its write
    transaction, and keeps the lock until it is finalised. *)
Definition insert_letter (title url publication_date : string)
           (summary : option string) (content : string) : M Z :=
  fun st =>
    if locked st
    then (Raise OperationalError, with_event (InsertBlocked url) st)
    else if url_in_table url (table st)
    then (Raise IntegrityError, with_lock (with_event (InsertRejected url) st))
    else
      let row := new_row (table st) title url publication_date summary content in
      (Ok (row_id row), with_row row st).

(** *** scraper.py *)

(** [self.base_url = base_url.rstrip('/')] *)
Definition base_url : string := Py.rstrip_slash (frbsf_base_url w).

Definition page_url (page : Z) : string :=
  if page =? 1 then base_url
  else base_url ++ "/page/" ++ Py.str_of_int page.

(** [ScraperService.fetch_letters_page]: the value it returns ... *)
Definition page_letters (page : Z) : list LetterData :=
  match rbind (client_get w (page_url page)) (parse_letter_list (soup_links w)) with
  | Ok letters => letters
  | Raise _ => []      (* both [except] clauses return [] *)
  end.

(** ... and the call, which awaits the network. *)
Definition fetch_letters_page (page : Z) : M (list LetterData) :=
  let* _ := log (GetPage page) in
  let* _ := suspend in
  ret (page_letters page).

(** [ScraperService.parse_letter_content] *)
Definition parse_letter_content (html : string) : result string :=
  match
    rbind (soup_content w html) (fun soup =>
    rbind (or_else (find_entry_content soup)
                   (or_else (find_article soup) (find_main soup)))
          (fun content_elem =>
    match content_elem with
    | Some elem => text_without_scripts elem
    | None => Ok ""
    end))
  with
  | Ok content => Ok content
  | Raise _ => Ok ""
  end.

(** [ScraperService.fetch_letter_content]: the value it returns ... *)
Definition letter_content (u : string) : string :=
  match rbind (client_get w u) parse_letter_content with
  | Ok content => content
  | Raise _ => ""      (* both [except] clauses return "" *)
  end.

(** ... and the call, which awaits the network. *)
Definition fetch_letter_content (u : string) : M string :=
  let* _ := log (GetContent u) in
  let* _ := suspend in
  ret (letter_content u).

End Pipeline.

(** ** schemas.py *)

Record FetchResponse : Type := {
  new_count : Z;
  message : string
}.

(** [FetchMoreRequest]: [current_page: int = Field(default=1, ge=1)]. *)
Record FetchMoreRequest : Type := {
  current_page : Z
}.

(** Validation of the request body; [None] for the field stands for a body
    that leaves it out. A body that fails validation never reaches the
    endpoint function. *)
Definition validate_FetchMoreRequest (body_current_page : option Z)
  : option FetchMoreRequest :=
  let v := match body_current_page with Some v => v | None => 1 end in
  if 1 <=? v then Some {| current_page := v |} else None.

(** What the caller of an endpoint receives. *)
Inductive Response : Type :=
  | Http200 (r : FetchResponse)
  | Http422                       (* request validation failed *)
  | Http500 (e : exn).            (* HTTPException(status_code=500, detail=str(e)) *)

(** ** main.py *)

Definition max_attempts : Z := 5.

(** [range(n)] *)
Definition range (n : Z) : list Z := map Z.of_nat (seq 0 (Z.to_nat n)).

Definition set_content (letter : LetterData) (c : string) : LetterData :=
  {| title := title letter; url := url letter;
     publication_date := publication_date letter;
     summary := summary letter; content := c |}.

Definition added_message (n : Z) : string :=
  "Added " ++ Py.str_of_int n ++ " new letter(s)".

Definition added_from_page_message (n page : Z) : string :=
  "Added " ++ Py.str_of_int n ++ " new letter(s) from page " ++ Py.str_of_int page.

Definition checked_message : string :=
  "Checked " ++ Py.str_of_int max_attempts
  ++ " pages but all letters already exist. You may have reached the end of available letters.".

Section Orchestrator.

Variable w : World.

(** [for letter in letters: ...], the same text in both endpoints
    (lines 144-160 and 197-213); [count] is [new_count], respectively
    [added_count]. *)
Fixpoint ingest_letters (letters : list LetterData) (count : Z) : M Z :=
  match letters with
  | [] => ret count
  | letter :: rest =>
      let* known := letter_exists (url letter) in
      if negb known then
        let* full_content := fetch_letter_content w (url letter) in
        let letter := if Py.truthy full_content
                      then set_content letter full_content else letter in
        let* _ := insert_letter (title letter) (url letter)
                                (publication_date letter) (summary letter)
                                (content letter) in
        ingest_letters rest (count + 1)
      else ingest_letters rest count
  end.

(** The [try] … [except Exception] of an endpoint. *)
Definition endpoint (body : M FetchResponse) (st : State) : Response * State :=
  match body st with
  | (Ok r, st') => (Http200 r, st')
  | (Raise e, st') => (Http500 e, st')
  end.

(** [fetch_new_letters] *)
Definition fetch_new_letters : State -> Response * State :=
  endpoint (
    let* letters := fetch_letters_page w 1 in
    let* new_count := ingest_letters letters 0 in
    let message := if 0 <? new_count then added_message new_count
                   else "No new letters found" in
    ret {| new_count := new_count; message := message |}).

(** [for attempt in range(max_attempts): ...]. [inl r] is the [return]
    inside the loop; [inr total_added] is the loop left by [break] or by
    running out of attempts. *)
Fixpoint fetch_more_loop (attempts : list Z) (current_page total_added : Z)
  : M (FetchResponse + Z) :=
  match attempts with
  | [] => ret (inr total_added)
  | attempt :: rest =>
      let next_page := current_page + attempt + 1 in
      let* letters := fetch_letters_page w next_page in
      match letters with
      | [] => ret (inr total_added)     (* break *)
      | _ :: _ =>
          let* added_count := ingest_letters letters 0 in
          let total_added := total_added + added_count in
          if 0 <? added_count
          then ret (inl {| new_count := total_added;
                           message := added_from_page_message total_added next_page |})
          else fetch_more_loop rest current_page total_added
      end
  end.

(** [fetch_more_letters] *)
Definition fetch_more_letters (request : FetchMoreRequest) : State -> Response * State :=
  endpoint (
    let* r := fetch_more_loop (range max_attempts) (current_page request) 0 in
    match r with
    | inl response => ret response
    | inr total_added =>
        let message := if total_added =? 0 then checked_message
                       else added_message total_added in
        ret {| new_count := total_added; message := message |}
    end).

(** [POST /api/letters/fetch-more] with the given [current_page] in its
    body. *)
Definition post_fetch_more (body_current_page : option Z) (st : State)
  : Response * State :=
  match validate_FetchMoreRequest body_current_page with
  | Some request => fetch_more_letters request st
  | None => (Http422, st)
  end.

End Orchestrator.

(** The spec's names for the two operations. *)
Definition run_fetch_new := fetch_new_letters.
Definition run_fetch_more (w : World) (starting_page : Z) := post_fetch_more w (Some starting_page).

(** The letter as [ingest_letters] hands it to [insert_letter], and the row
    that the insert adds to [table]. *)
Definition stored_letter (w : World) (l : LetterData) : LetterData :=
  if Py.truthy (letter_content w (url l))
  then set_content l (letter_content w (url l)) else l.

Definition row_of_letter (table : list Row) (l : LetterData) : Row :=
  new_row table (title l) (url l) (publication_date l) (summary l) (content l).

(** [row] holds the candidate [l] as the listing page gave it: its body is
    the excerpt when a non-empty excerpt was found, and the title otherwise. *)
Definition stored_as_listed (l : LetterData) (row : Row) : Prop :=
  row_url row = url l
  /\ row_title row = title l
  /\ row_publication_date row = publication_date l
  /\ row_summary row = summary l
  /\ row_content row = match summary l with
                       | Some s => if Py.truthy s then s else title l
                       | None => title l
                       end.

(** ** Reading a trace *)

Definition pages_visited (t : list Event) : list Z :=
  omap (fun e => match e with GetPage p => Some p | _ => None end) t.

Definition rows_inserted (t : list Event) : list Row :=
  omap (fun e => match e with Inserted r => Some r | _ => None end) t.

Definition rejected_urls (t : list Event) : list string :=
  omap (fun e => match e with InsertRejected u => Some u | _ => None end) t.

(** The state in which an invocation starts: its own trace is empty. *)
Definition begin (st : State) : State :=
  {| table := table st; locked := locked st; awaits := awaits st; trace := [] |}.

Definition initial_state (table : list Row) : State :=
  {| table := table; locked := false; awaits := 0; trace := [] |}.

(** Once a row has been inserted, no further listing page is fetched. *)
Definition no_page_after_insert (t : list Event) : Prop :=
  forall t1 r t2, t = (t1 ++ Inserted r :: t2)%list -> pages_visited t2 = [].

(** ** The [/YYYY/MM/] pattern, stated on the string *)

Fixpoint digits (s : string) : bool :=
  match s with
  | EmptyString => true
  | String c s' => Py.is_digit c && digits s'
  end.

(** [s] is [pre], then [/y/m/] with [y] four digits and [m] two, then [post]. *)
Definition date_segment (s pre y m post : string) : Prop :=
  s = pre ++ "/" ++ y ++ "/" ++ m ++ "/" ++ post
  /\ String.length y = 4%nat /\ String.length m = 2%nat
  /\ digits y = true /\ digits m = true.

(** The occurrence that starts furthest to the left. *)
Definition leftmost_date_segment (s pre y m post : string) : Prop :=
  date_segment s pre y m post
  /\ forall pre' y' m' post',
       date_segment s pre' y' m' post' ->
       (String.length pre <= String.length pre')%nat.

(** The path of an absolute locator [scheme://authority/path?query#fragment]
    as RFC 3986 names its parts: what follows the authority, up to the first
    [?] or [#]. The code never splits a locator; this is the "locator's path"
    of the specification. *)
Fixpoint after_scheme (s : string) : string :=
  match s with
  | EmptyString => EmptyString
  | String c s' =>
      if String.prefix "://" s then String.substring 3 (String.length s - 3) s
      else after_scheme s'
  end.

Fixpoint before_query (s : string) : string :=
  match s with
  | EmptyString => EmptyString
  | String c s' =>
      if Ascii.eqb c "?" || Ascii.eqb c "#" then EmptyString
      else String c (before_query s')
  end.

Fixpoint from_first_slash (s : string) : string :=
  match s with
  | EmptyString => EmptyString
  | String c s' => if Py.is_slash c then s else from_first_slash s'
  end.

Definition locator_path (u : string) : string :=
  from_first_slash (before_query (after_scheme u)).

(** A world in which nothing else touches the store. *)
Definition quiet (w : World) : Prop := forall n, meanwhile w n = [].

(** ** Statements about the listing parser *)

(** [link] is the first of [links] whose href resolves to [u]. *)
Definition first_occurrence (links : list Anchor) (i : nat) (link : Anchor) (u : string) : Prop :=
  links !! i = Some link
  /\ candidate_url link = Ok (Some u)
  /\ forall j link', (j < i)%nat -> links !! j = Some link' ->
                     candidate_url link' <> Ok (Some u).

(** The invariant of [for link in all_links], started on the empty set and
    the empty list. *)
Definition parse_inv (links : list Anchor) (st : gset string * list LetterData) : Prop :=
  (forall u, u ∈ st.1 <->
             exists i link, links !! i = Some link /\ candidate_url link = Ok (Some u))
  /\ NoDup (url <$> st.2)
  /\ (forall l, l ∈ st.2 -> url l ∈ st.1)
  /\ (forall l, l ∈ st.2 ->
        exists i link, first_occurrence links i link (url l)
                       /\ link_candidate link (url l) = Ok (Some l)).

(** ** Sample data *)

Definition mk_anchor (href text : string) (excerpt : option string) : Anchor :=
  {| get_href := Ok href;
     get_text := Ok text;
     find_parent :=
       Ok (Some {| find_p :=
                     Ok (match excerpt with
                         | Some s => Some {| p_get_text := Ok s |}
                         | None => None
                         end) |}) |}.

(** An anchor whose text cannot be read. *)
Definition broken_anchor (href : string) : Anchor :=
  {| get_href := Ok href;
     get_text := Raise OtherException;
     find_parent := Ok None |}.

Definition labor_href : string :=
  "/research-and-insights/publications/economic-letter/2024/03/labor-markets/".
Definition labor_url : string := site_origin ++ labor_href.
Definition housing_url : string :=
  "https://www.frbsf.org/economic-letter/housing-supply/".

Definition demo_links : list Anchor :=
  [ mk_anchor "/research-and-insights/publications/economic-letter/" "Economic Letter" None;
    mk_anchor labor_href "Labor Markets and Inflation" (Some "A short excerpt.");
    mk_anchor labor_href "Read the Economic Letter" None;
    mk_anchor "/research-and-insights/publications/economic-letter/page/2/" "Older letters" None;
    broken_anchor "/economic-letter/2023/11/broken/";
    mk_anchor housing_url "Housing Supply Constraints" None;
    mk_anchor "/about/contact" "Contact us today" None ].

Definition labor_letter : LetterData :=
  {| title := "Labor Markets and Inflation";
     url := labor_url;
     publication_date := "2024-03-01";
     summary := Some "A short excerpt.";
     content := "A short excerpt." |}.

Definition housing_letter : LetterData :=
  {| title := "Housing Supply Constraints";
     url := housing_url;
     publication_date := "";
     summary := None;
     content := "Housing Supply Constraints" |}.

Definition demo_soup : string -> result (list Anchor) := fun _ => Ok demo_links.

(** A link to an archive view that carries a year and a month in its
    query string only. *)
Definition query_links : list Anchor :=
  [ mk_anchor "/economic-letter/archive/?from=/2020/05/" "Archive of Earlier Letters" None ].

Definition query_soup : string -> result (list Anchor) := fun _ => Ok query_links.

(** A letter of November 2019 reprinted under a later year and month. *)
Definition reprint_links : list Anchor :=
  [ mk_anchor "/economic-letter/2019/11/reprint/2024/03/" "Reprint of an Earlier Letter" None ].

Definition reprint_soup : string -> result (list Anchor) := fun _ => Ok reprint_links.

(** The first anchor to the letter is a "read more" link, the second
    carries the title. *)
Definition shadowed_links : list Anchor :=
  [ mk_anchor labor_href "Read more" None;
    mk_anchor labor_href "Labor Markets and Inflation" (Some "A short excerpt.") ].

Definition shadowed_soup : string -> result (list Anchor) := fun _ => Ok shadowed_links.

(** A site given by the document behind each URL and by the anchors of
    each listing document; a URL without a document answers 404. The full
    text of a detail page is its [entry-content] container. *)

Definition lookup_or {A} (d : A) (k : string) (kvs : list (string * A)) : A :=
  match List.find (fun kv => String.eqb (fst kv) k) kvs with
  | Some kv => snd kv
  | None => d
  end.

Definition site (documents : list (string * result string))
           (anchors : list (string * list Anchor))
           (others : nat -> list Other) : World :=
  {| frbsf_base_url :=
       "https://www.frbsf.org/research-and-insights/publications/economic-letter/";
     client_get := fun u => lookup_or (Raise HTTPError) u documents;
     soup_links := fun html => Ok (lookup_or [] html anchors);
     soup_content := fun html =>
       Ok {| find_entry_content := Ok (Some {| text_without_scripts := Ok html |});
             find_article := Ok None;
             find_main := Ok None |};
     meanwhile := others |}.

Definition listing_root : string :=
  "https://www.frbsf.org/research-and-insights/publications/economic-letter".

Definition wages_href : string := "/economic-letter/2019/07/wage-growth/".
Definition wages_url : string := site_origin ++ wages_href.
Definition trade_href : string := "/economic-letter/2018/02/trade-and-prices/".
Definition trade_url : string := site_origin ++ trade_href.

Definition wages_letter : LetterData :=
  {| title := "Wage Growth after the Recession";
     url := wages_url;
     publication_date := "2019-07-01";
     summary := None;
     content := "Wage Growth after the Recession" |}.

Definition trade_letter : LetterData :=
  {| title := "Trade and Consumer Prices";
     url := trade_url;
     publication_date := "2018-02-01";
     summary := None;
     content := "Trade and Consumer Prices" |}.

(** Five listing pages with one letter each on the first four; the fifth
    is empty. Only the third letter has a detail page that answers. *)
Definition history_documents : list (string * result string) :=
  [ (listing_root, Ok "page 1");
    (listing_root ++ "/page/2", Ok "page 2");
    (listing_root ++ "/page/3", Ok "page 3");
    (listing_root ++ "/page/4", Ok "page 4");
    (listing_root ++ "/page/5", Ok "page 5");
    (wages_url, Ok "Full text on wage growth.") ].

Definition history_anchors : list (string * list Anchor) :=
  [ ("page 1", [mk_anchor labor_href "Labor Markets and Inflation" (Some "A short excerpt.")]);
    ("page 2", [mk_anchor housing_url "Housing Supply Constraints" None]);
    ("page 3", [mk_anchor wages_href "Wage Growth after the Recession" None]);
    ("page 4", [mk_anchor trade_href "Trade and Consumer Prices" None]);
    ("page 5", []) ].

Definition history_world : World :=
  site history_documents history_anchors (fun _ => []).

(** The same site while another request stores the first letter during
    this request's second [await], the detail fetch. *)
Definition race_world : World :=
  site history_documents history_anchors
       (fun n => match n with 1%nat => [OtherInsert labor_letter] | _ => [] end).


(** A listing whose only letter sits next to an empty paragraph, and whose
    detail page does not answer. *)
Definition empty_excerpt_world : World :=
  site [ (listing_root, Ok "page 1") ]
       [ ("page 1", [mk_anchor labor_href "Labor Markets and Inflation" (Some "")]) ]
       (fun _ => []).

Definition table_of (letters : list LetterData) : list Row :=
  fold_left other_insert letters [].

(** Requests and starting states of the sample runs. *)
Definition from_page (n : Z) : FetchMoreRequest := {| current_page := n |}.
Definition empty_store : State := initial_state [].
Definition trade_stored : State := initial_state (table_of [trade_letter]).
Definition first_two_stored : State :=
  initial_state (table_of [labor_letter; housing_letter]).
Definition middle_two_stored : State :=
  initial_state (table_of [housing_letter; wages_letter]).

(** ** Statements about the orchestrator *)


Definition new_letters (table : list Row) (letters : list LetterData) : list LetterData :=
  List.filter (fun l => negb (url_in_table (url l) table)) letters.

(** The number of candidates of the page that are not in the table. *)
Definition count_new (w : World) (page : Z) (table : list Row) : nat :=
  length (new_letters table (page_letters w page)).

(** ** The candidates of a listing, stated without the loop *)

(** The href of the anchor resolves to the locator [u]. *)
Definition resolves_to (u : string) (link : Anchor) : bool :=
  match candidate_url link with
  | Ok (Some u') => String.eqb u' u
  | _ => false
  end.

(** What the anchor at position [i] contributes: its candidate, when no
    anchor before it resolves to the same locator and the candidate can be
    built. *)
Definition first_occurrence_candidate (links : list Anchor) (i : nat)
  : option LetterData :=
  match links !! i with
  | Some link =>
      match candidate_url link with
      | Ok (Some u) =>
          if existsb (resolves_to u) (take i links) then None
          else match link_candidate link u with
               | Ok (Some l) => Some l
               | _ => None
               end
      | _ => None
      end
  | None => None
  end.

Definition first_occurrence_candidates (links : list Anchor) : list LetterData :=
  omap (first_occurrence_candidate links) (seq 0 (length links)).

(** ** How the table may change *)

Definition contents_fetched (t : list Event) : list string :=
  omap (fun e => match e with GetContent u => Some u | _ => None end) t.

(** Every detail fetch is directly followed by the insert attempt for the
    same locator, which commits a row, is rejected or is blocked; and there
    is no insert attempt without its detail fetch. *)
Inductive fetch_then_insert : list Event -> Prop :=
  | fti_nil : fetch_then_insert []
  | fti_page (p : Z) (t : list Event) :
      fetch_then_insert t -> fetch_then_insert (GetPage p :: t)
  | fti_inserted (row : Row) (t : list Event) :
      fetch_then_insert t ->
      fetch_then_insert (GetContent (row_url row) :: Inserted row :: t)
  | fti_rejected (u : string) (t : list Event) :
      fetch_then_insert t ->
      fetch_then_insert (GetContent u :: InsertRejected u :: t)
  | fti_blocked (u : string) (t : list Event) :
      fetch_then_insert t ->
      fetch_then_insert (GetContent u :: InsertBlocked u :: t).

(** The locators of the candidates of the given pages that are not in the
    table, page after page and in listing order. *)
Definition new_on_pages (w : World) (table : list Row) (pages : list Z) : list string :=
  concat ((fun p => url <$> new_letters table (page_letters w p)) <$> pages).

(** The table is changed only by appending, one at a time, a row with the
    next id for a locator that it does not hold yet. *)
Inductive grows : list Row -> list Row -> Prop :=
  | grows_refl (t : list Row) : grows t t
  | grows_step (t t' : list Row) (title url publication_date : string)
               (summary : option string) (content : string) :
      grows t t' ->
      url_in_table url t' = false ->
      grows t (t' ++ [new_row t' title url publication_date summary content])%list.

(** The [UNIQUE] constraint on [url]. *)
Definition urls_unique (t : list Row) : Prop := NoDup (row_url <$> t).

(** The ids are 1, 2, ... in the order of insertion. *)
Definition ids_sequential (t : list Row) : Prop :=
  row_id <$> t = (fun i => Z.of_nat i) <$> seq 1 (length t).



(** ** repository.py: reading the letters *)

(** [get_letter_by_url]: [SELECT ... WHERE url = ?], [fetchone]. The
    [created_at] column, a timestamp of the database clock, is not part of
    [Row]. *)
Definition get_letter_by_url (u : string) (table : list Row) : option Row :=
  List.find (fun r => String.eqb (row_url r) u) table.

(** The integers that SQLite stores and binds are 64 bits wide and signed;
    [execute] with a parameter outside raises [OverflowError] ("Python int
    too large to convert to SQLite INTEGER"). *)
Definition sqlite_int (v : Z) : bool := (- 2 ^ 63 <=? v) && (v <? 2 ^ 63).

(** [get_letter_by_id]: [SELECT ... WHERE id = ?], [fetchone]; the
    exception is logged and raised again. *)
Definition get_letter_by_id (letter_id : Z) (table : list Row) : result (option Row) :=
  if sqlite_int letter_id
  then Ok (List.find (fun r => row_id r =? letter_id) table)
  else Raise OverflowError.

(** [LIMIT ? OFFSET ?] as SQLite reads two integers that it was given: a
    negative offset counts as 0, a negative limit as no limit. *)
Definition limit_offset {A} (limit offset : Z) (rows : list A) : list A :=
  let rest := drop (Z.to_nat offset) rows in
  if limit <? 0 then rest else take (Z.to_nat limit) rest.

(** [LetterListResponse] *)
Record LetterListResponse : Type := {
  letters : list Row;
  total : Z;
  has_more : bool
}.

(** The answer of an endpoint other than the two fetch endpoints. *)
Inductive Http (A : Type) : Type :=
  | H200 (a : A)
  | H404
  | H422
  | H500 (e : exn).
Arguments H200 {A} a.
Arguments H404 {A}.
Arguments H422 {A}.
Arguments H500 {A} e.

Section Listing.

(** The rows in the order in which [ORDER BY publication_date DESC] returns
    them; how rows with the same date are ordered is left to SQLite. *)
Variable by_date_desc : list Row -> list Row.

(** [DatabaseRepository.get_letters]: the count, then the page; binding
    [limit] and [offset] to the second query may raise. *)
Definition get_letters (limit offset : Z) (table : list Row) : result (list Row * Z) :=
  let total := Z.of_nat (length table) in
  if sqlite_int limit && sqlite_int offset
  then Ok (limit_offset limit offset (by_date_desc table), total)
  else Raise OverflowError.

(** [GET /api/letters]: [limit: Query(default=20, ge=1, le=100)],
    [offset: Query(default=0, ge=0)]; [None] is a parameter left out. *)
Definition get_letters_endpoint (limit offset : option Z) (table : list Row)
  : Http LetterListResponse :=
  let limit := match limit with Some v => v | None => 20 end in
  let offset := match offset with Some v => v | None => 0 end in
  if (1 <=? limit) && (limit <=? 100) && (0 <=? offset) then
    match get_letters limit offset table with
    | Ok (letters_data, total) =>
        H200 {| letters := letters_data;
                total := total;
                has_more := offset + Z.of_nat (length letters_data) <? total |}
    | Raise e => H500 e
    end
  else H422.

End Listing.

(** ** repository.py: the questions *)

Record QuestionRow : Type := {
  q_id : Z;
  q_letter_id : Z;
  q_question : string;
  q_answer : string;
  q_created_at : string
}.

(** The two tables. [question_seq] is the largest id the [questions] table
    has ever handed out ([AUTOINCREMENT]); it is not lowered by a delete. *)
Record Db : Type := {
  db_letters : list Row;
  db_questions : list QuestionRow;
  question_seq : Z
}.

Definition letter_id_in_table (letter_id : Z) (table : list Row) : bool :=
  existsb (fun r => row_id r =? letter_id) table.

(** [DatabaseRepository.insert_question]; [now] is [CURRENT_TIMESTAMP].
    With [PRAGMA foreign_keys = ON] a [letter_id] without a letter fails the
    foreign key and raises [sqlite3.IntegrityError]. *)
Definition insert_question (now : string) (letter_id : Z) (question answer : string)
           (db : Db) : result Z * Db :=
  if letter_id_in_table letter_id (db_letters db) then
    let question_id := question_seq db + 1 in
    (Ok question_id,
     {| db_letters := db_letters db;
        db_questions :=
          (db_questions db ++ [{| q_id := question_id; q_letter_id := letter_id;
                                  q_question := question; q_answer := answer;
                                  q_created_at := now |}])%list;
        question_seq := question_id |})
  else (Raise IntegrityError, db).


Section Questions.

(** The rows in the order in which [ORDER BY created_at ASC] returns them. *)
Variable by_created_at_asc : list QuestionRow -> list QuestionRow.

(** The Bedrock call of [LLMService.generate_insight]: the answer, or the
    exception it raises. The coroutine awaits nothing, so the endpoint is not
    suspended while it runs. *)
Variable generate_insight : string -> string -> result string.

(** [DatabaseRepository.get_questions_for_letter] *)
Definition get_questions_for_letter (letter_id : Z) (db : Db)
  : result (list QuestionRow) :=
  if sqlite_int letter_id
  then Ok (by_created_at_asc
             (List.filter (fun q => q_letter_id q =? letter_id) (db_questions db)))
  else Raise OverflowError.

(** [GET /api/letters/{letter_id}]; the path parameter is any [int]. *)
Definition get_letter_detail (letter_id : Z) (db : Db)
  : Http (Row * list QuestionRow) :=
  match get_letter_by_id letter_id (db_letters db) with
  | Raise e => H500 e
  | Ok None => H404
  | Ok (Some letter) =>
      match get_questions_for_letter letter_id db with
      | Raise e => H500 e
      | Ok questions => H200 (letter, questions)
      end
  end.

(** [QuestionResponse] *)
Record QuestionResponse : Type := {
  question_id : Z;
  answer : string;
  timestamp : string
}.

(** [POST /api/letters/{letter_id}/questions];
    [question: str = Field(..., min_length=1, max_length=5000)]. *)
Definition submit_question (now : string) (letter_id : Z) (question : string) (db : Db)
  : Http QuestionResponse * Db :=
  if (1 <=? Py.len question) && (Py.len question <=? 5000) then
    match get_letter_by_id letter_id (db_letters db) with
    | Raise e => (H500 e, db)
    | Ok None => (H404, db)
    | Ok (Some letter) =>
        match generate_insight (row_content letter) question with
        | Raise e => (H500 e, db)
        | Ok answer =>
            match insert_question now letter_id question answer db with
            | (Raise e, db') => (H500 e, db')
            | (Ok question_id, db') =>
                match get_questions_for_letter letter_id db' with
                | Raise e => (H500 e, db')
                | Ok questions =>
                    let stored_question :=
                      List.find (fun q => q_id q =? question_id) questions in
                    let timestamp := match stored_question with
                                     | Some q => q_created_at q
                                     | None => ""
                                     end in
                    (H200 {| question_id := question_id; answer := answer;
                             timestamp := timestamp |}, db')
                end
            end
        end
    end
  else (H422, db).

End Questions.



(** A sample database and sample collaborators. *)
Definition sample_db : Db :=
  {| db_letters := table_of [labor_letter; housing_letter];
     db_questions :=
       [ {| q_id := 1; q_letter_id := 1; q_question := "What drives inflation?";
            q_answer := "Labor costs."; q_created_at := "2024-04-01 10:00:00" |};
         {| q_id := 3; q_letter_id := 2; q_question := "Why is supply low?";
            q_answer := "Zoning."; q_created_at := "2024-04-02 09:30:00" |} ];
     question_seq := 3 |}.

Definition sample_llm : string -> string -> result string :=
  fun letter_content question => Ok ("About: " ++ question).

Definition failing_llm : string -> string -> result string :=
  fun _ _ => Raise OtherException.

(** A sort to stand for SQLite's in the sample runs: insertion sort. *)
Fixpoint insert_sorted {A} (le : A -> A -> bool) (x : A) (l : list A) : list A :=
  match l with
  | [] => [x]
  | y :: l' => if le x y then x :: l else y :: insert_sorted le x l'
  end.

Definition sort_by {A} (le : A -> A -> bool) (l : list A) : list A :=
  fold_right (insert_sorted le) [] l.

Definition sample_by_date_desc : list Row -> list Row :=
  sort_by (fun a b => String.leb (row_publication_date b) (row_publication_date a)).

Definition sample_by_created_at_asc : list QuestionRow -> list QuestionRow :=
  sort_by (fun a b => String.leb (q_created_at a) (q_created_at b)).

Definition four_stored : list Row :=
  table_of [labor_letter; housing_letter; wages_letter; trade_letter].

(** * Properties *)

(** ** The primitives on sample inputs *)

Example contains_ex :
  Py.contains "/research/economic-letter/2024/03/x/" "economic-letter" = true
  /\ Py.contains "/research/working-papers/" "economic-letter" = false.
Proof. split; reflexivity. Qed.

Example endswith_ex :
  Py.endswith "https://www.frbsf.org/economic-letter/" "/economic-letter/" = true
  /\ Py.endswith "https://www.frbsf.org/economic-letter/x" "/economic-letter" = false.
Proof. split; reflexivity. Qed.

Example search_date_ex :
  Py.search_date "https://www.frbsf.org/economic-letter/2024/03/title/"
  = Some ("2024", "03")
  /\ Py.search_date "https://www.frbsf.org/economic-letter/1999/01/2024/03/"
     = Some ("1999", "01")
  /\ Py.search_date "https://www.frbsf.org/economic-letter/20244/03/" = None.
Proof. repeat split; reflexivity. Qed.

Example str_of_int_ex :
  Py.str_of_int 12 = "12" /\ Py.str_of_int 0 = "0" /\ Py.str_of_int (-3) = "-3".
Proof. repeat split; reflexivity. Qed.

Example lower_ex : Py.lower "Economic LETTER" = "economic letter".
Proof. reflexivity. Qed.

Example rstrip_slash_ex :
  Py.rstrip_slash "https://www.frbsf.org/economic-letter//" = "https://www.frbsf.org/economic-letter"
  /\ Py.rstrip_slash "a/b" = "a/b".
Proof. split; reflexivity. Qed.

Example page_url_ex :
  page_url history_world 1 = listing_root
  /\ page_url history_world 2 = listing_root ++ "/page/2".
Proof. split; reflexivity. Qed.

Example demo_parse :
  parse_letter_list demo_soup "<html>" = Ok [labor_letter; housing_letter].
Proof. vm_compute. reflexivity. Qed.

Example validate_ex :
  validate_FetchMoreRequest None = Some {| current_page := 1 |}
  /\ validate_FetchMoreRequest (Some 0) = None
  /\ validate_FetchMoreRequest (Some 3) = Some {| current_page := 3 |}.
Proof. repeat split; reflexivity. Qed.

Example fetch_more_ex :
  (run_fetch_more history_world 2 empty_store).1
  = Http200 {| new_count := 1; message := "Added 1 new letter(s) from page 3" |}
  /\ row_content <$> table (run_fetch_more history_world 2 empty_store).2
     = ["Full text on wage growth."].
Proof. split; vm_compute; reflexivity. Qed.

(** ** The date pattern *)

Lemma is_slash_true c : Py.is_slash c = true -> c = "/"%char.
Proof. unfold Py.is_slash. apply Ascii.eqb_eq. Qed.

Lemma match_date_here_sound s y m :
  Py.match_date_here s = Some (y, m) ->
  exists post, date_segment s "" y m post.
Proof.
  unfold Py.match_date_here.
  destruct s as [|c0 [|y1 [|y2 [|y3 [|y4 [|c5 [|m1 [|m2 [|c8 post]]]]]]]]];
    try discriminate.
  destruct (Py.is_slash c0) eqn:H0; [|discriminate].
  destruct (Py.is_digit y1) eqn:D1; [|discriminate].
  destruct (Py.is_digit y2) eqn:D2; [|discriminate].
  destruct (Py.is_digit y3) eqn:D3; [|discriminate].
  destruct (Py.is_digit y4) eqn:D4; [|discriminate].
  destruct (Py.is_slash c5) eqn:H5; [|discriminate].
  destruct (Py.is_digit m1) eqn:D6; [|discriminate].
  destruct (Py.is_digit m2) eqn:D7; [|discriminate].
  destruct (Py.is_slash c8) eqn:H8; [|discriminate].
  cbn. intros [= <- <-].
  apply is_slash_true in H0, H5, H8. subst.
  exists post. unfold date_segment. cbn [digits].
  rewrite D1, D2, D3, D4, D6, D7. repeat split; reflexivity.
Qed.

Lemma match_date_here_complete s y m post :
  date_segment s "" y m post -> Py.match_date_here s = Some (y, m).
Proof.
  intros (-> & Hy & Hm & Dy & Dm).
  destruct y as [|y1 [|y2 [|y3 [|y4 [|]]]]]; try discriminate.
  destruct m as [|m1 [|m2 [|]]]; try discriminate.
  cbn [digits] in Dy, Dm.
  apply andb_prop in Dy as [D1 Dy]. apply andb_prop in Dy as [D2 Dy].
  apply andb_prop in Dy as [D3 Dy]. apply andb_prop in Dy as [D4 _].
  apply andb_prop in Dm as [D6 Dm]. apply andb_prop in Dm as [D7 _].
  cbv [String.append Py.match_date_here].
  rewrite D1, D2, D3, D4, D6, D7. reflexivity.
Qed.

Lemma date_segment_cons c s pre y m post :
  date_segment s pre y m post -> date_segment (String c s) (String c pre) y m post.
Proof. intros (-> & H). split; [reflexivity | exact H]. Qed.

Lemma date_segment_uncons c s pre y m post :
  date_segment (String c s) (String c pre) y m post -> date_segment s pre y m post.
Proof.
  intros (E & H). split; [|exact H].
  cbv [String.append] in E. injection E as E. exact E.
Qed.

Lemma date_segment_head c s c' pre y m post :
  date_segment (String c s) (String c' pre) y m post -> c' = c.
Proof. intros (E & _). cbv [String.append] in E. congruence. Qed.

Lemma search_date_Some s y m :
  Py.search_date s = Some (y, m) ->
  exists pre post, leftmost_date_segment s pre y m post.
Proof.
  induction s as [|c s IH]; cbn [Py.search_date].
  - cbn. discriminate.
  - destruct (Py.match_date_here (String c s)) as [g|] eqn:Hm.
    + intros [= ->]. apply match_date_here_sound in Hm as [post Hs].
      exists "", post. split; [exact Hs|]. intros. cbn. lia.
    + intros Hs. destruct (IH Hs) as (pre & post & Hseg & Hleft).
      exists (String c pre), post. split.
      * apply date_segment_cons, Hseg.
      * intros pre' y' m' post' H'. destruct pre' as [|c' pre'].
        -- apply match_date_here_complete in H'. congruence.
        -- pose proof (date_segment_head _ _ _ _ _ _ _ H') as ->.
           apply date_segment_uncons, Hleft in H'. cbn. lia.
Qed.

Lemma search_date_None s :
  Py.search_date s = None ->
  forall pre y m post, ~ date_segment s pre y m post.
Proof.
  induction s as [|c s IH]; cbn [Py.search_date].
  - intros _ pre y m post (E & _). destruct pre; discriminate E.
  - destruct (Py.match_date_here (String c s)) as [g|] eqn:Hm; [discriminate|].
    intros Hs pre y m post H'. destruct pre as [|c' pre].
    + apply match_date_here_complete in H'. congruence.
    + pose proof (date_segment_head _ _ _ _ _ _ _ H') as ->.
      apply date_segment_uncons in H'. exact (IH Hs _ _ _ _ H').
Qed.

(** Two leftmost occurrences are the same occurrence. *)
Lemma leftmost_date_segment_search s pre y m post :
  leftmost_date_segment s pre y m post -> Py.search_date s = Some (y, m).
Proof.
  revert pre. induction s as [|c s IH]; intros pre [Hseg Hleft].
  - destruct Hseg as (E & _). destruct pre; discriminate E.
  - cbn [Py.search_date].
    destruct (Py.match_date_here (String c s)) as [[y0 m0]|] eqn:Hm.
    + apply match_date_here_sound in Hm as [post0 H0].
      pose proof (Hleft _ _ _ _ H0) as Hlen. cbn in Hlen.
      destruct pre; [|cbn in Hlen; lia].
      apply match_date_here_complete in Hseg, H0. congruence.
    + destruct pre as [|c' pre].
      * apply match_date_here_complete in Hseg. congruence.
      * pose proof (date_segment_head _ _ _ _ _ _ _ Hseg) as ->.
        apply (IH pre). split.
        -- apply date_segment_uncons in Hseg. exact Hseg.
        -- intros pre' y' m' post' H'.
           apply (date_segment_cons c), Hleft in H'. cbn in H'. lia.
Qed.

Lemma date_of_url_leftmost u pre y m post :
  leftmost_date_segment u pre y m post ->
  date_of_url u = y ++ "-" ++ m ++ "-01".
Proof.
  intros H. unfold date_of_url.
  rewrite (leftmost_date_segment_search _ _ _ _ _ H). reflexivity.
Qed.

Lemma date_of_url_some u :
  (exists pre y m post, date_segment u pre y m post) ->
  exists pre y m post,
    leftmost_date_segment u pre y m post
    /\ date_of_url u = y ++ "-" ++ m ++ "-01".
Proof.
  intros (pre & y & m & post & H). unfold date_of_url.
  destruct (Py.search_date u) as [[y0 m0]|] eqn:Hs.
  - destruct (search_date_Some _ _ _ Hs) as (pre0 & post0 & H0).
    exists pre0, y0, m0, post0. split; [exact H0 | reflexivity].
  - exfalso. exact (search_date_None _ Hs _ _ _ _ H).
Qed.

Lemma date_of_url_none u :
  ~ (exists pre y m post, date_segment u pre y m post) ->
  date_of_url u = "".
Proof.
  intros H. unfold date_of_url.
  destruct (Py.search_date u) as [[y0 m0]|] eqn:Hs; [|reflexivity].
  destruct (search_date_Some _ _ _ Hs) as (pre0 & post0 & [H0 _]).
  exfalso. apply H. eauto.
Qed.

(** ** The listing parser *)

Local Open Scope list_scope.

Lemma title_rejected_spec t :
  title_rejected t = true <->
  t = "" \/ Py.len t < 10
  \/ Py.lower t = "read the economic letter" \/ Py.lower t = "economic letter".
Proof.
  unfold title_rejected, boilerplate_titles.
  rewrite !orb_true_iff, negb_true_iff, Z.ltb_lt, bool_decide_eq_true.
  rewrite !elem_of_cons, elem_of_nil.
  destruct t; cbn [Py.truthy]; intuition congruence.
Qed.

Lemma rbind_Ok {A B} (r : result A) (k : A -> result B) b :
  rbind r k = Ok b -> exists a, r = Ok a /\ k a = Ok b.
Proof. destruct r; cbn; [eauto | discriminate]. Qed.

(** What a candidate built by [link_candidate] looks like. *)
Lemma link_candidate_Some link u l :
  link_candidate link u = Ok (Some l) ->
  url l = u
  /\ get_text link = Ok (title l)
  /\ title_rejected (title l) = false
  /\ publication_date l = date_of_url u
  /\ content l = summary_or_title (summary l) (title l).
Proof.
  unfold link_candidate. intros H.
  apply rbind_Ok in H as (t & Ht & H).
  destruct (title_rejected t) eqn:Hr; [discriminate|].
  apply rbind_Ok in H as (parent & _ & H).
  apply rbind_Ok in H as (s & _ & H).
  injection H as <-. cbn. auto.
Qed.

(** The four ways out of the body of the inner [try]. *)
Lemma parse_link_cases seen link :
  (exists e, candidate_url link = Raise e
             /\ parse_link seen link = (Raise e, seen))
  \/ (candidate_url link = Ok None /\ parse_link seen link = (Ok None, seen))
  \/ (exists u, candidate_url link = Ok (Some u) /\ (u ∈ seen)
                /\ parse_link seen link = (Ok None, seen))
  \/ (exists u, candidate_url link = Ok (Some u) /\ (u ∉ seen)
                /\ parse_link seen link = (link_candidate link u, {[u]} ∪ seen)).
Proof.
  unfold parse_link. destruct (candidate_url link) as [[u|]|e]; eauto.
  destruct (bool_decide (u ∈ seen)) eqn:Hd.
  - apply bool_decide_eq_true in Hd. right; right; left. eauto.
  - apply bool_decide_eq_false in Hd. right; right; right. eauto.
Qed.

Lemma first_occurrence_app links a i link u :
  first_occurrence links i link u -> first_occurrence (links ++ [a]) i link u.
Proof.
  intros (Hi & Hu & Hfirst).
  pose proof (lookup_lt_Some _ _ _ Hi) as Hlt.
  split; [|split; [exact Hu|]].
  - rewrite lookup_app_l; assumption.
  - intros j link' Hj Hl. rewrite lookup_app_l in Hl by lia. eauto.
Qed.

Lemma first_occurrence_unique links i j link link' u :
  first_occurrence links i link u -> first_occurrence links j link' u ->
  i = j /\ link = link'.
Proof.
  intros (Hi & Hu & Hf) (Hj & Hu' & Hf').
  destruct (Nat.lt_trichotomy i j) as [H|[H|H]].
  - exfalso. exact (Hf' _ _ H Hi Hu).
  - subst. split; congruence.
  - exfalso. exact (Hf _ _ H Hj Hu').
Qed.

Lemma parse_links_snoc links a st :
  parse_links (links ++ [a]) st = parse_step (parse_links links st) a.
Proof. unfold parse_links. rewrite fold_left_app. reflexivity. Qed.

Lemma seen_snoc links (a : Anchor) (seen seen' : gset string) :
  (forall u, u ∈ seen <->
             exists i link, links !! i = Some link /\ candidate_url link = Ok (Some u)) ->
  (forall u, u ∈ seen' <-> u ∈ seen \/ candidate_url a = Ok (Some u)) ->
  forall u, u ∈ seen' <->
            exists i link, (links ++ [a]) !! i = Some link
                           /\ candidate_url link = Ok (Some u).
Proof.
  intros Hseen Hseen' u. rewrite Hseen', Hseen. split.
  - intros [(i & link & Hi & Hu)|Hu].
    + exists i, link. split; [|exact Hu].
      rewrite lookup_app_l; [assumption | eapply lookup_lt_Some; eassumption].
    + exists (length links), a. split; [|exact Hu].
      rewrite lookup_app_r by lia. rewrite Nat.sub_diag. reflexivity.
  - intros (i & link & Hi & Hu).
    apply lookup_app_Some in Hi as [Hi|[Hge Hi]].
    + left. eauto.
    + right. destruct (i - length links)%nat; cbn in Hi; [|discriminate].
      congruence.
Qed.

Lemma parse_inv_keep links a seen letters (seen' : gset string) :
  parse_inv links (seen, letters) ->
  (forall u, u ∈ seen' <-> u ∈ seen \/ candidate_url a = Ok (Some u)) ->
  parse_inv (links ++ [a]) (seen', letters).
Proof.
  intros (Hseen & Hnd & Hin & Hfirst) Hseen'. cbn [fst snd] in *.
  split; [|split; [|split]]; cbn [fst snd].
  - eapply seen_snoc; eassumption.
  - exact Hnd.
  - intros l Hl. apply Hseen'. left. auto.
  - intros l Hl. destruct (Hfirst l Hl) as (i & link & Hf & Hc).
    exists i, link. split; [apply first_occurrence_app, Hf | exact Hc].
Qed.

Lemma parse_inv_links links :
  parse_inv links (parse_links links (∅, [])).
Proof.
  induction links as [|a links IH] using rev_ind.
  - cbn. split; [|split; [|split]]; cbn.
    + intros u. split; [set_solver|]. intros (i & link & Hi & _).
      rewrite lookup_nil in Hi. discriminate.
    + constructor.
    + intros l Hl. apply elem_of_nil in Hl as [].
    + intros l Hl. apply elem_of_nil in Hl as [].
  - rewrite parse_links_snoc.
    destruct (parse_links links (∅, [])) as [seen letters].
    unfold parse_step.
    destruct (parse_link_cases seen a)
      as [(e & Hc & ->)|[(Hc & ->)|[(u & Hc & Hu & ->)|(u & Hc & Hu & ->)]]].
    + apply (parse_inv_keep _ _ _ _ _ IH). intros u. rewrite Hc. intuition discriminate.
    + apply (parse_inv_keep _ _ _ _ _ IH). intros u. rewrite Hc. intuition discriminate.
    + apply (parse_inv_keep _ _ _ _ _ IH). intros u'. rewrite Hc.
      split; [auto|]. intros [?|[= <-]]; assumption.
    + assert (Hseen' : forall u', u' ∈ ({[u]} ∪ seen : gset string) <->
                                  u' ∈ seen \/ candidate_url a = Ok (Some u')).
      { intros u'. rewrite Hc, elem_of_union, elem_of_singleton.
        split; [intros [->|?]; auto | intros [?|[= <-]]; auto]. }
      destruct (link_candidate a u) as [[l|]|e] eqn:Hl;
        try (apply (parse_inv_keep _ _ _ _ _ IH Hseen')).
      pose proof (parse_inv_keep _ a _ _ _ IH Hseen') as (H1 & H2 & H3 & H4).
      destruct IH as (Hseen & Hnd & Hin & Hfirst).
      cbn [fst snd] in Hseen, Hnd, Hin, Hfirst, H2, H3, H4.
      pose proof (link_candidate_Some _ _ _ Hl) as (Hurl & _).
      split; [exact H1|split; [|split]]; cbn [fst snd].
      * rewrite fmap_app. apply NoDup_app. split; [exact Hnd|]. split.
        -- intros x Hx Hx'. cbn in Hx'. apply list_elem_of_singleton in Hx'.
           apply list_elem_of_fmap in Hx as (l' & -> & Hl').
           apply Hu. rewrite <- Hurl, <- Hx'. auto.
        -- cbn. apply NoDup_singleton.
      * intros l' Hl'. apply elem_of_app in Hl' as [Hl'|Hl']; [auto|].
        apply list_elem_of_singleton in Hl' as ->. rewrite Hurl.
        apply elem_of_union. left. apply elem_of_singleton. reflexivity.
      * intros l' Hl'. apply elem_of_app in Hl' as [Hl'|Hl']; [auto|].
        apply list_elem_of_singleton in Hl' as ->. rewrite Hurl.
        exists (length links), a. split; [|exact Hl].
        split; [|split; [exact Hc|]].
        -- rewrite lookup_app_r by lia. rewrite Nat.sub_diag. reflexivity.
        -- intros j link' Hj Hlk Hc'. rewrite lookup_app_l in Hlk by lia.
           apply Hu, Hseen. eauto.
Qed.

Lemma parse_step_acc seen acc a :
  parse_step (seen, acc) a
  = ((parse_step (seen, []) a).1, acc ++ (parse_step (seen, []) a).2).
Proof.
  unfold parse_step. destruct (parse_link seen a) as [[[l|]|e] seen']; cbn;
    rewrite ?app_nil_r; reflexivity.
Qed.

Lemma parse_links_cons a links st :
  parse_links (a :: links) st = parse_links links (parse_step st a).
Proof. reflexivity. Qed.

Lemma parse_links_acc links seen acc :
  parse_links links (seen, acc)
  = ((parse_links links (seen, [])).1, acc ++ (parse_links links (seen, [])).2).
Proof.
  revert seen acc. induction links as [|a links IH]; intros seen acc.
  - cbn. rewrite app_nil_r. reflexivity.
  - rewrite !parse_links_cons, (parse_step_acc seen acc).
    destruct (parse_step (seen, []) a) as [seen' out]. cbn [fst snd].
    rewrite (IH seen' (acc ++ out)), (IH seen' out). cbn [fst snd].
    rewrite app_assoc. reflexivity.
Qed.

Lemma parse_links_skip l1 a l2 st e :
  (parse_link (parse_links l1 st).1 a).1 = Raise e ->
  parse_links (l1 ++ a :: l2) st
  = parse_links l2 ((parse_link (parse_links l1 st).1 a).2, (parse_links l1 st).2).
Proof.
  intros He. unfold parse_links at 1. rewrite fold_left_app.
  fold (parse_links l1 st). fold (parse_links (a :: l2)).
  rewrite parse_links_cons.
  destruct (parse_links l1 st) as [seen1 out1]. cbn [fst snd] in *.
  unfold parse_step. destruct (parse_link seen1 a) as [r seen1'].
  cbn [fst snd] in *. subst r. reflexivity.
Qed.

Lemma omap_ext_in {A B} (f g : A -> option B) (l : list A) :
  (forall x, x ∈ l -> f x = g x) -> omap f l = omap g l.
Proof.
  induction l as [|x l IH]; intros H; [reflexivity|].
  cbn. rewrite (H x) by apply list_elem_of_here.
  rewrite IH; [reflexivity|]. intros y Hy. apply H, list_elem_of_further, Hy.
Qed.

Lemma existsb_resolves_to u links :
  existsb (resolves_to u) links = true <->
  exists i link, links !! i = Some link /\ candidate_url link = Ok (Some u).
Proof.
  rewrite existsb_exists. split.
  - intros (link & Hin & Hr). unfold resolves_to in Hr.
    destruct (candidate_url link) as [[u'|]|e] eqn:Hc; try discriminate.
    apply String.eqb_eq in Hr as ->.
    apply list_elem_of_In, list_elem_of_lookup in Hin as [i Hi]. eauto.
  - intros (i & link & Hi & Hc). exists link. split.
    + apply list_elem_of_In, list_elem_of_lookup. eauto.
    + unfold resolves_to. rewrite Hc. apply String.eqb_refl.
Qed.

Lemma first_occurrence_candidate_app links a i :
  (i < length links)%nat ->
  first_occurrence_candidate (links ++ [a]) i = first_occurrence_candidate links i.
Proof.
  intros Hi. unfold first_occurrence_candidate.
  rewrite lookup_app_l by exact Hi. rewrite take_app_le by lia. reflexivity.
Qed.

Lemma first_occurrence_candidates_snoc links a :
  first_occurrence_candidates (links ++ [a])
  = first_occurrence_candidates links
    ++ match first_occurrence_candidate (links ++ [a]) (length links) with
       | Some l => [l]
       | None => []
       end.
Proof.
  unfold first_occurrence_candidates.
  rewrite length_app. cbn [length]. rewrite seq_app, omap_app. cbn [seq omap].
  f_equal.
  apply omap_ext_in. intros i Hi. apply elem_of_seq in Hi.
  apply first_occurrence_candidate_app. lia.
Qed.

Lemma parse_links_first_occurrence_candidates links :
  (parse_links links (∅, [])).2 = first_occurrence_candidates links.
Proof.
  induction links as [|a links IH] using rev_ind; [reflexivity|].
  rewrite parse_links_snoc, first_occurrence_candidates_snoc, <- IH.
  pose proof (parse_inv_links links) as (Hseen & _).
  destruct (parse_links links (∅, [])) as [seen letters]. cbn [fst snd] in *.
  unfold first_occurrence_candidate.
  rewrite lookup_app_r by lia. rewrite Nat.sub_diag. cbn [lookup list_lookup].
  rewrite take_app_length.
  unfold parse_step.
  destruct (parse_link_cases seen a)
    as [(e & Hc & ->)|[(Hc & ->)|[(u & Hc & Hu & ->)|(u & Hc & Hu & ->)]]];
    rewrite Hc; cbn [snd]; rewrite ?app_nil_r; try reflexivity.
  - apply Hseen, existsb_resolves_to in Hu. rewrite Hu, app_nil_r. reflexivity.
  - assert (Hn : existsb (resolves_to u) links = false).
    { apply not_true_is_false. intros H. apply Hu, Hseen, existsb_resolves_to, H. }
    rewrite Hn. destruct (link_candidate a u) as [[l|]|e];
      cbn [snd]; rewrite ?app_nil_r; reflexivity.
Qed.

Lemma first_occurrence_candidate_Some links i link l :
  first_occurrence links i link (url l) ->
  link_candidate link (url l) = Ok (Some l) ->
  first_occurrence_candidate links i = Some l.
Proof.
  intros (Hi & Hc & Hfirst) Hl. unfold first_occurrence_candidate.
  rewrite Hi, Hc, Hl.
  destruct (existsb (resolves_to (url l)) (take i links)) eqn:He; [|reflexivity].
  apply existsb_resolves_to in He as (j & link' & Hj & Hc').
  apply lookup_take_Some in Hj as [Hj Hlt].
  exfalso. exact (Hfirst j link' Hlt Hj Hc').
Qed.

(** What [parse_letter_list] returns, read off the loop invariant. *)
Lemma parse_letter_list_inv soup html letters :
  parse_letter_list soup html = Ok letters ->
  NoDup (url <$> letters)
  /\ forall l, l ∈ letters ->
       exists all_links i link,
         soup html = Ok all_links
         /\ first_occurrence all_links i link (url l)
         /\ link_candidate link (url l) = Ok (Some l).
Proof.
  unfold parse_letter_list. destruct (soup html) as [all_links|e]; intros [= <-].
  - destruct (parse_inv_links all_links) as (_ & Hnd & _ & Hfirst).
    split; [exact Hnd|]. intros l Hl.
    destruct (Hfirst l Hl) as (i & link & Hf & Hc). eauto 6.
  - split; [constructor|]. intros l Hl. apply elem_of_nil in Hl as [].
Qed.

Lemma parse_letter_list_Ok soup html :
  exists letters, parse_letter_list soup html = Ok letters.
Proof. unfold parse_letter_list. destruct (soup html); eauto. Qed.

(** C5. For every HTML input the locators of the candidates returned by
    [parse_letter_list] are pairwise distinct, and the candidates returned
    are exactly those built from the first anchor, in document order, that
    resolves to their locator: such a candidate is kept, and no candidate
    built from a later anchor to the same locator is. *)
Theorem parse_letter_list_distinct_locators
        (soup : string -> result (list Anchor)) (html : string) :
  exists letters,
    parse_letter_list soup html = Ok letters
    /\ NoDup (url <$> letters)
    /\ (forall l,
          l ∈ letters <->
          exists all_links i link,
            soup html = Ok all_links
            /\ first_occurrence all_links i link (url l)
            /\ link_candidate link (url l) = Ok (Some l))
    /\ (forall all_links i j link link' u l,
          soup html = Ok all_links ->
          first_occurrence all_links i link u ->
          (i < j)%nat ->
          all_links !! j = Some link' ->
          link_candidate link' u = Ok (Some l) ->
          l ∈ letters ->
          link_candidate link u = Ok (Some l)).
Proof.
  destruct (parse_letter_list_Ok soup html) as [letters Hp].
  destruct (parse_letter_list_inv _ _ _ Hp) as [Hnd Hfirst].
  exists letters. split; [exact Hp|]. split; [exact Hnd|]. split.
  - intros l. split; [apply Hfirst|].
    intros (all_links & i & link & Hs & Hf & Hc).
    unfold parse_letter_list in Hp. rewrite Hs in Hp. injection Hp as <-.
    rewrite parse_links_first_occurrence_candidates.
    unfold first_occurrence_candidates. apply list_elem_of_omap.
    exists i. split.
    + apply elem_of_seq. destruct Hf as (Hi & _).
      apply lookup_lt_Some in Hi. lia.
    + eapply first_occurrence_candidate_Some; eassumption.
  - intros all_links i j link link' u l Hs Hf Hlt Hj Hc' Hl.
    destruct (Hfirst l Hl) as (all_links0 & k & link0 & Hs0 & Hf0 & Hc0).
    rewrite Hs in Hs0. injection Hs0 as <-.
    assert (Hu : url l = u).
    { apply link_candidate_Some in Hc'. apply Hc'. }
    rewrite Hu in Hf0, Hc0.
    destruct (first_occurrence_unique _ _ _ _ _ _ Hf Hf0) as [_ <-].
    exact Hc0.
Qed.

Lemma parse_letter_list_distinct_locators_witness :
  parse_letter_list demo_soup "<html>" = Ok [labor_letter; housing_letter]
  /\ NoDup (url <$> [labor_letter; housing_letter])
  /\ (forall l,
        l ∈ [labor_letter; housing_letter] <->
        exists all_links i link,
          demo_soup "<html>" = Ok all_links
          /\ first_occurrence all_links i link (url l)
          /\ link_candidate link (url l) = Ok (Some l)).
Proof.
  destruct (parse_letter_list_distinct_locators demo_soup "<html>")
    as (letters & Hp & Hnd & Hiff & _).
  assert (E : letters = [labor_letter; housing_letter]).
  { assert (Hp' : parse_letter_list demo_soup "<html>"
                  = Ok [labor_letter; housing_letter]) by reflexivity.
    rewrite Hp' in Hp. injection Hp as <-. reflexivity. }
  rewrite E in Hp, Hnd, Hiff. split; [exact Hp|]. split; [exact Hnd | exact Hiff].
Defined.

(** C6. [parse_letter_list] never raises: it returns a list for every
    input; when the document cannot be parsed the list is empty; and when
    processing one link raises, the result is what the links before it
    yield followed by what the links after it yield. *)
Theorem parse_letter_list_total
        (soup : string -> result (list Anchor)) (html : string) :
  (exists letters, parse_letter_list soup html = Ok letters)
  /\ (forall e, soup html = Raise e -> parse_letter_list soup html = Ok [])
  /\ (forall l1 a l2 e,
        soup html = Ok (l1 ++ a :: l2) ->
        (parse_link (parse_links l1 (∅, [])).1 a).1 = Raise e ->
        parse_letter_list soup html
        = Ok ((parse_links l1 (∅, [])).2
              ++ (parse_links l2 ((parse_link (parse_links l1 (∅, [])).1 a).2, [])).2)).
Proof.
  unfold parse_letter_list. split; [|split].
  - destruct (soup html); eauto.
  - intros e ->. reflexivity.
  - intros l1 a l2 e -> He.
    rewrite (parse_links_skip _ _ _ _ _ He), parse_links_acc. reflexivity.
Qed.

Lemma parse_letter_list_total_witness :
  parse_letter_list demo_soup "<html>" = Ok ([labor_letter] ++ [housing_letter])
  /\ parse_letter_list (fun _ => Raise OtherException) "<html>" = Ok [].
Proof.
  split.
  - exact (proj2 (proj2 (parse_letter_list_total demo_soup "<html>"))
                 (firstn 4 demo_links) (broken_anchor "/economic-letter/2023/11/broken/")
                 (skipn 5 demo_links) OtherException eq_refl eq_refl).
  - exact (proj1 (proj2 (parse_letter_list_total (fun _ => Raise OtherException) "<html>"))
                 OtherException eq_refl).
Defined.

(** C8, as the code has it. The period of every candidate returned by
    [parse_letter_list] is a function of its locator alone: when the locator
    string, taken as a whole (scheme, host, path, query and fragment alike),
    contains [/YYYY/MM/] (four digits, two digits) the period is
    [YYYY-MM-01] built from the digits of the leftmost such occurrence, and
    otherwise it is the empty string. *)
Theorem period_determined_by_locator
        (soup : string -> result (list Anchor)) (html : string)
        (letters : list LetterData) (l : LetterData) :
  parse_letter_list soup html = Ok letters ->
  l ∈ letters ->
  publication_date l = date_of_url (url l)
  /\ (forall pre y m post,
        leftmost_date_segment (url l) pre y m post ->
        publication_date l = y +:+ "-" +:+ m +:+ "-01")
  /\ ((exists pre y m post, date_segment (url l) pre y m post) ->
      exists pre y m post,
        leftmost_date_segment (url l) pre y m post
        /\ publication_date l = y +:+ "-" +:+ m +:+ "-01")
  /\ (~ (exists pre y m post, date_segment (url l) pre y m post) ->
      publication_date l = "").
Proof.
  intros Hp Hl.
  destruct (parse_letter_list_inv _ _ _ Hp) as [_ Hall].
  destruct (Hall l Hl) as (all_links & i & link & _ & _ & Hc).
  apply link_candidate_Some in Hc as (_ & _ & _ & Hd & _).
  rewrite Hd. split; [reflexivity|]. split; [|split].
  - intros. eapply date_of_url_leftmost. eassumption.
  - apply date_of_url_some.
  - apply date_of_url_none.
Qed.

Lemma period_determined_by_locator_witness :
  parse_letter_list demo_soup "<html>" = Ok [labor_letter; housing_letter]
  /\ labor_letter ∈ [labor_letter; housing_letter]
  /\ publication_date labor_letter = date_of_url labor_url
  /\ date_of_url labor_url = "2024-03-01".
Proof.
  assert (Hp : parse_letter_list demo_soup "<html>" = Ok [labor_letter; housing_letter])
    by reflexivity.
  assert (Hl : labor_letter ∈ [labor_letter; housing_letter])
    by apply list_elem_of_here.
  split; [exact Hp|]. split; [exact Hl|]. split; [|reflexivity].
  exact (proj1 (period_determined_by_locator demo_soup "<html>" _ _ Hp Hl)).
Defined.

(** C8, as stated, fails on a locator that has the pattern in its query
    string only: the path holds no [/YYYY/MM/] segment, yet the period is
    not empty. And of two segments in the path it is the leftmost that gives
    the period: a locator that contains [/2024/03/] after [/2019/11/] gets
    [2019-11-01]. *)
Lemma period_taken_from_query_string :
  (exists l,
     parse_letter_list query_soup "<html>" = Ok [l]
     /\ url l = "https://www.frbsf.org/economic-letter/archive/?from=/2020/05/"
     /\ locator_path (url l) = "/economic-letter/archive/"
     /\ ~ (exists pre y m post, date_segment (locator_path (url l)) pre y m post)
     /\ publication_date l = "2020-05-01"
     /\ publication_date l <> "")
  /\ (exists l,
        parse_letter_list reprint_soup "<html>" = Ok [l]
        /\ date_segment (locator_path (url l))
                        "/economic-letter/2019/11/reprint" "2024" "03" ""
        /\ publication_date l = "2019-11-01"
        /\ publication_date l <> "2024-03-01").
Proof.
  split.
  - eexists. split; [vm_compute; reflexivity|].
    cbn [url publication_date].
    split; [reflexivity|]. split; [vm_compute; reflexivity|].
    split; [|split; [reflexivity | discriminate]].
    intros (pre & y & m & post & H).
    refine (search_date_None _ _ _ _ _ _ H). vm_compute. reflexivity.
  - eexists. split; [vm_compute; reflexivity|].
    cbn [url publication_date].
    split; [|split; [reflexivity | discriminate]].
    repeat split; vm_compute; reflexivity.
Qed.

(** C10. A locator is marked as seen before the link text is validated:
    when the first anchor, in document order, that resolves to a locator has
    a title that is empty, shorter than 10 characters or, case-insensitively,
    a boilerplate phrase, no candidate with that locator is returned,
    whatever the later anchors to the same locator carry. *)
Theorem seen_before_title_validation
        (soup : string -> result (list Anchor)) (html : string)
        (all_links : list Anchor) (i : nat) (link : Anchor) (u t : string)
        (letters : list LetterData) :
  soup html = Ok all_links ->
  first_occurrence all_links i link u ->
  get_text link = Ok t ->
  (t = "" \/ Py.len t < 10
   \/ Py.lower t = "read the economic letter" \/ Py.lower t = "economic letter") ->
  parse_letter_list soup html = Ok letters ->
  u ∉ url <$> letters.
Proof.
  intros Hs Hf Ht Hbad Hp Hin.
  apply list_elem_of_fmap in Hin as (l & -> & Hl).
  destruct (parse_letter_list_inv _ _ _ Hp) as [_ Hall].
  destruct (Hall l Hl) as (all_links' & j & link' & Hs' & Hf' & Hc).
  rewrite Hs in Hs'. injection Hs' as <-.
  destruct (first_occurrence_unique _ _ _ _ _ _ Hf Hf') as [_ <-].
  apply link_candidate_Some in Hc as (_ & Ht' & Hr & _).
  rewrite Ht in Ht'. injection Ht' as ->.
  apply title_rejected_spec in Hbad. congruence.
Qed.

Lemma seen_before_title_validation_witness :
  parse_letter_list shadowed_soup "<html>" = Ok []
  /\ labor_url ∉ url <$> ([] : list LetterData).
Proof.
  assert (Hp : parse_letter_list shadowed_soup "<html>" = Ok []) by reflexivity.
  split; [exact Hp|].
  refine (seen_before_title_validation shadowed_soup "<html>" shadowed_links 0
            (mk_anchor labor_href "Read more" None) labor_url "Read more" []
            eq_refl _ eq_refl _ Hp).
  - split; [reflexivity|]. split; [reflexivity|]. intros j link' Hj. lia.
  - right. left. reflexivity.
Defined.

(** ** The table only grows *)

Lemma url_in_table_app u t t' :
  url_in_table u (t ++ t') = url_in_table u t || url_in_table u t'.
Proof. apply existsb_app. Qed.

Lemma url_in_table_prefix u t t' :
  t `prefix_of` t' -> url_in_table u t = true -> url_in_table u t' = true.
Proof. intros [k ->] H. rewrite url_in_table_app, H. reflexivity. Qed.

Lemma url_in_table_elem u t :
  url_in_table u t = true <-> exists row, row ∈ t /\ row_url row = u.
Proof.
  unfold url_in_table. rewrite existsb_exists. split.
  - intros (row & Hin & He). apply String.eqb_eq in He.
    exists row. split; [apply list_elem_of_In, Hin | exact He].
  - intros (row & Hin & He). exists row.
    split; [apply list_elem_of_In, Hin | apply String.eqb_eq, He].
Qed.

Lemma other_insert_prefix t l : t `prefix_of` other_insert t l.
Proof.
  unfold other_insert. destruct (url_in_table (url l) t).
  - reflexivity.
  - apply prefix_app_r. reflexivity.
Qed.

Lemma other_step_prefix s o : s.1 `prefix_of` (other_step s o).1.
Proof.
  destruct s as [t lk], o as [l|]; unfold other_step; cbn [fst snd]; [|reflexivity].
  destruct lk; [reflexivity|].
  destruct (url_in_table (url l) t); [reflexivity|]. apply other_insert_prefix.
Qed.

Lemma fold_other_step_prefix os s : s.1 `prefix_of` (fold_left other_step os s).1.
Proof.
  revert s. induction os as [|o os IH]; intros s; cbn [fold_left].
  - reflexivity.
  - etrans; [apply other_step_prefix | apply IH].
Qed.

Section Steps.

Variable w : World.

Lemma after_suspend_prefix st : table st `prefix_of` table (after_suspend w st).
Proof. apply (fold_other_step_prefix _ (table st, locked st)). Qed.

Lemma after_suspend_quiet st :
  quiet w -> table (after_suspend w st) = table st.
Proof. intros Hq. unfold after_suspend. rewrite Hq. reflexivity. Qed.

Lemma after_suspend_quiet_locked st :
  quiet w -> locked (after_suspend w st) = locked st.
Proof. intros Hq. unfold after_suspend. rewrite Hq. reflexivity. Qed.

Lemma fetch_letters_page_eq page st :
  fetch_letters_page w page st
  = (Ok (page_letters w page), after_suspend w (with_event (GetPage page) st)).
Proof. reflexivity. Qed.

Lemma fetch_letter_content_eq u st :
  fetch_letter_content w u st
  = (Ok (letter_content w u), after_suspend w (with_event (GetContent u) st)).
Proof. reflexivity. Qed.

Lemma url_stored_letter l : url (stored_letter w l) = url l.
Proof. unfold stored_letter. destruct (Py.truthy _); reflexivity. Qed.

(** One iteration of the loop over the candidates. *)
Lemma ingest_letters_cons l rest count st :
  ingest_letters w (l :: rest) count st
  = if url_in_table (url l) (table st)
    then ingest_letters w rest count st
    else
      let st1 := after_suspend w (with_event (GetContent (url l)) st) in
      if locked st1
      then (Raise OperationalError, with_event (InsertBlocked (url l)) st1)
      else if url_in_table (url l) (table st1)
      then (Raise IntegrityError, with_lock (with_event (InsertRejected (url l)) st1))
      else ingest_letters w rest (count + 1)
             (with_row (row_of_letter (table st1) (stored_letter w l)) st1).
Proof.
  cbn [ingest_letters]. unfold bind at 1, letter_exists.
  destruct (url_in_table (url l) (table st)); cbn [negb]; [reflexivity|].
  unfold bind at 1. rewrite fetch_letter_content_eq. cbv zeta.
  unfold bind at 1, insert_letter.
  fold (stored_letter w l). unfold row_of_letter. rewrite !url_stored_letter.
  destruct (locked _); [reflexivity|].
  destruct (url_in_table (url l) (table _)); reflexivity.
Qed.

End Steps.

(** ** The loop over the candidates of one page *)

Lemma elem_of_prefix_of {A} (x : A) (t t' : list A) :
  t `prefix_of` t' -> x ∈ t -> x ∈ t'.
Proof. intros [k ->] H. apply elem_of_app. left. exact H. Qed.

Section Ingest.

Variable w : World.

(** What one run of the loop does, in any world: it fetches no listing
    page, only appends to the table, counts its own inserts, and raises
    nothing but the exception of an insert that was rejected or blocked,
    which ends it. *)
Lemma ingest_letters_spec letters : forall count st r st',
  ingest_letters w letters count st = (r, st') ->
  exists evs,
    trace st' = trace st ++ evs
    /\ pages_visited evs = []
    /\ table st `prefix_of` table st'
    /\ (forall row, row ∈ rows_inserted evs -> row ∈ table st')
    /\ match r with
       | Ok n =>
           n = count + Z.of_nat (length (rows_inserted evs))
           /\ rejected_urls evs = []
           /\ forall l, l ∈ letters -> url_in_table (url l) (table st') = true
       | Raise e =>
           exists evs0 u,
             rejected_urls evs0 = []
             /\ (e = IntegrityError /\ evs = evs0 ++ [InsertRejected u]
                 \/ e = OperationalError /\ evs = evs0 ++ [InsertBlocked u])
       end.
Proof.
  induction letters as [|l rest IH]; intros count st r st' E.
  - cbn in E. injection E as <- <-. exists [].
    rewrite app_nil_r. cbn. repeat split; try reflexivity; try lia.
    + intros row H. apply elem_of_nil in H as [].
    + intros l H. apply elem_of_nil in H as [].
  - rewrite ingest_letters_cons in E.
    destruct (url_in_table (url l) (table st)) eqn:Hknown.
    { destruct (IH _ _ _ _ E) as (evs & Ht & Hp & Hpre & Hrows & Hr).
      exists evs. repeat (split; [assumption|]).
      destruct r as [n|e]; [|exact Hr].
      destruct Hr as (Hn & Hrej & Hall). repeat (split; [assumption|]).
      intros l' Hl'. apply elem_of_cons in Hl' as [->|Hl']; [|auto].
      eapply url_in_table_prefix; eassumption. }
    cbv zeta in E.
    set (st1 := after_suspend w (with_event (GetContent (url l)) st)) in *.
    assert (Hpre1 : table st `prefix_of` table st1)
      by apply (after_suspend_prefix w (with_event (GetContent (url l)) st)).
    assert (Ht1 : trace st1 = trace st ++ [GetContent (url l)]) by reflexivity.
    destruct (locked st1) eqn:Hlock.
    { injection E as <- <-.
      exists [GetContent (url l); InsertBlocked (url l)].
      cbn [with_event trace table]. rewrite Ht1, <- app_assoc.
      split; [reflexivity|]. split; [reflexivity|]. split; [exact Hpre1|].
      split; [intros row H; cbn in H; apply elem_of_nil in H as []|].
      exists [GetContent (url l)], (url l). split; [reflexivity|].
      right. split; reflexivity. }
    destruct (url_in_table (url l) (table st1)) eqn:Hrace.
    { injection E as <- <-.
      exists [GetContent (url l); InsertRejected (url l)].
      cbn [with_lock with_event trace table]. rewrite Ht1, <- app_assoc.
      split; [reflexivity|]. split; [reflexivity|]. split; [exact Hpre1|].
      split; [intros row H; cbn in H; apply elem_of_nil in H as []|].
      exists [GetContent (url l)], (url l). split; [reflexivity|].
      left. split; reflexivity. }
    set (row := row_of_letter (table st1) (stored_letter w l)) in *.
    destruct (IH _ _ _ _ E) as (evs & Ht & Hp & Hpre & Hrows & Hr).
    cbn [with_row trace table] in Ht, Hpre.
    assert (Hrow : row ∈ table st').
    { eapply elem_of_prefix_of; [exact Hpre|].
      apply elem_of_app. right. apply list_elem_of_here. }
    exists (GetContent (url l) :: Inserted row :: evs).
    split. { rewrite Ht, Ht1, <- !app_assoc. reflexivity. }
    split. { exact Hp. }
    split. { etrans; [exact Hpre1|]. etrans; [|exact Hpre]. apply prefix_app_r. reflexivity. }
    split. { intros row' H. cbn in H. apply elem_of_cons in H as [->|H]; auto. }
    destruct r as [n|e].
    + destruct Hr as (Hn & Hrej & Hall).
      split. { change (rows_inserted (GetContent (url l) :: Inserted row :: evs))
               with (row :: rows_inserted evs).
             cbn [length]. lia. }
      split. { exact Hrej. }
      intros l' Hl'. apply elem_of_cons in Hl' as [->|Hl']; [|auto].
      apply url_in_table_elem. exists row. split; [exact Hrow|].
      apply url_stored_letter.
    + destruct Hr as (evs0 & u & Hrej & He).
      exists (GetContent (url l) :: Inserted row :: evs0), u.
      split; [exact Hrej|].
      destruct He as [[-> ->]|[-> ->]]; [left|right]; split; reflexivity.
Qed.

(** Candidates that are all in the table: nothing happens. *)
Lemma ingest_letters_known letters : forall count st,
  (forall l, l ∈ letters -> url_in_table (url l) (table st) = true) ->
  ingest_letters w letters count st = (Ok count, st).
Proof.
  induction letters as [|l rest IH]; intros count st Hall; [reflexivity|].
  rewrite ingest_letters_cons, (Hall l) by apply list_elem_of_here.
  apply IH. intros l' Hl'. apply Hall. apply list_elem_of_further, Hl'.
Qed.

End Ingest.

(** ** Traces *)

Lemma pages_visited_app t t' :
  pages_visited (t ++ t') = pages_visited t ++ pages_visited t'.
Proof. apply omap_app. Qed.

Lemma rows_inserted_app t t' :
  rows_inserted (t ++ t') = rows_inserted t ++ rows_inserted t'.
Proof. apply omap_app. Qed.

Lemma rejected_urls_app t t' :
  rejected_urls (t ++ t') = rejected_urls t ++ rejected_urls t'.
Proof. apply omap_app. Qed.

Lemma no_page_after_insert_no_pages t :
  pages_visited t = [] -> no_page_after_insert t.
Proof.
  intros H t1 r t2 ->. rewrite pages_visited_app in H.
  apply app_eq_nil in H as [_ H]. exact H.
Qed.

Lemma no_page_after_insert_app t t' :
  rows_inserted t = [] -> no_page_after_insert t' -> no_page_after_insert (t ++ t').
Proof.
  intros Hrows H' t1 r t2 E.
  apply app_eq_app in E as [k [[-> E]|[-> E]]].
  - destruct k as [|x k].
    + cbn in E. rewrite app_nil_r in Hrows. exact (H' [] r t2 (eq_sym E)).
    + injection E as <- _. rewrite rows_inserted_app in Hrows.
      apply app_eq_nil in Hrows as [_ Hrows]. discriminate Hrows.
  - exact (H' _ _ _ E).
Qed.

Lemma no_page_after_insert_no_rows t :
  rows_inserted t = [] -> no_page_after_insert t.
Proof.
  intros H t1 r t2 ->. rewrite rows_inserted_app in H.
  apply app_eq_nil in H as [_ H]. discriminate H.
Qed.

(** ** The loop over the pages *)

Section Pages.

Variable w : World.

(** One iteration of [for attempt in range(max_attempts)]. *)
Lemma fetch_more_loop_cons a rest cp total st :
  fetch_more_loop w (a :: rest) cp total st
  = let p := cp + a + 1 in
    let st1 := after_suspend w (with_event (GetPage p) st) in
    match page_letters w p with
    | [] => (Ok (inr total), st1)
    | l :: ls =>
        match ingest_letters w (l :: ls) 0 st1 with
        | (Ok added, st2) =>
            if 0 <? added
            then (Ok (inl {| new_count := total + added;
                             message := added_from_page_message (total + added) p |}),
                  st2)
            else fetch_more_loop w rest cp (total + added) st2
        | (Raise e, st2) => (Raise e, st2)
        end
    end.
Proof.
  cbn [fetch_more_loop]. unfold bind at 1. rewrite fetch_letters_page_eq.
  cbv zeta. destruct (page_letters w (cp + a + 1)) as [|l ls]; [reflexivity|].
  unfold bind at 1.
  destruct (ingest_letters w (l :: ls) 0 _) as [[added|e] st2]; [|reflexivity].
  destruct (0 <? added); reflexivity.
Qed.

Lemma fetch_more_loop_spec attempts : forall cp total st r st',
  fetch_more_loop w attempts cp total st = (r, st') ->
  exists evs k,
    trace st' = trace st ++ evs
    /\ (k <= length attempts)%nat
    /\ pages_visited evs = (fun a => cp + a + 1) <$> take k attempts
    /\ no_page_after_insert evs
    /\ table st `prefix_of` table st'
    /\ (forall row, row ∈ rows_inserted evs -> row ∈ table st')
    /\ (forall p, p ∈ pages_visited evs -> page_letters w p = [] ->
                  last (pages_visited evs) = Some p /\ r = Ok (inr total))
    /\ match r with
       | Ok (inl resp) =>
           new_count resp = total + Z.of_nat (length (rows_inserted evs))
           /\ rows_inserted evs <> []
           /\ rejected_urls evs = []
           /\ exists p, last (pages_visited evs) = Some p
                        /\ message resp = added_from_page_message (new_count resp) p
       | Ok (inr t) =>
           t = total /\ rows_inserted evs = [] /\ rejected_urls evs = []
       | Raise e =>
           e = IntegrityError /\ rejected_urls evs <> []
           \/ e = OperationalError /\ rejected_urls evs = []
       end.
Proof.
  induction attempts as [|a rest IH]; intros cp total st r st' E.
  { cbn in E. injection E as <- <-. exists [], 0%nat.
    rewrite app_nil_r.
    split; [reflexivity|]. split; [cbn; lia|]. split; [reflexivity|].
    split; [intros t1 r t2 H; destruct t1; discriminate H|].
    split; [reflexivity|].
    split; [intros row H; apply elem_of_nil in H as []|].
    split; [|repeat split; reflexivity].
    intros p H. apply elem_of_nil in H as []. }
  rewrite fetch_more_loop_cons in E. cbv zeta in E.
  set (p := cp + a + 1) in *.
  set (st1 := after_suspend w (with_event (GetPage p) st)) in *.
  assert (Hpre1 : table st `prefix_of` table st1)
    by apply (after_suspend_prefix w (with_event (GetPage p) st)).
  assert (Ht1 : trace st1 = trace st ++ [GetPage p]) by reflexivity.
  destruct (page_letters w p) as [|l ls] eqn:Hpage.
  { injection E as <- <-. exists [GetPage p], 1%nat.
    split; [exact Ht1|]. split; [cbn; lia|]. split; [reflexivity|].
    split; [apply no_page_after_insert_no_rows; reflexivity|].
    split; [exact Hpre1|].
    split; [intros row H; apply elem_of_nil in H as []|].
    split; [|repeat split; reflexivity].
    intros p' Hp' _. cbn in Hp'. apply list_elem_of_singleton in Hp' as ->.
    split; reflexivity. }
  destruct (ingest_letters w (l :: ls) 0 st1) as [ri st2] eqn:Ei.
  apply ingest_letters_spec in Ei as (evs_i & Ht2 & Hpg & Hpre2 & Hrows2 & Hri).
  assert (Hpages1 : pages_visited (GetPage p :: evs_i) = [p]).
  { change (pages_visited (GetPage p :: evs_i)) with (p :: pages_visited evs_i).
    rewrite Hpg. reflexivity. }
  assert (Hstop : forall r0 : result (FetchResponse + Z),
             forall p', p' ∈ pages_visited (GetPage p :: evs_i) ->
                        page_letters w p' = [] ->
                        last (pages_visited (GetPage p :: evs_i)) = Some p'
                        /\ r0 = Ok (inr total)).
  { intros r0 p' Hp' Hempty. rewrite Hpages1 in Hp'.
    apply list_elem_of_singleton in Hp' as ->. congruence. }
  assert (Hnp : no_page_after_insert (GetPage p :: evs_i)).
  { apply (no_page_after_insert_app [GetPage p] evs_i); [reflexivity|].
    apply no_page_after_insert_no_pages, Hpg. }
  destruct ri as [added|e].
  - destruct Hri as (Hadded & Hrej & _). cbn in Hadded.
    destruct (0 <? added) eqn:Hpos.
    + apply Z.ltb_lt in Hpos. injection E as <- <-.
      exists (GetPage p :: evs_i), 1%nat.
      split. { rewrite Ht2, Ht1, <- app_assoc. reflexivity. }
      split. { cbn. lia. }
      split. { rewrite Hpages1. reflexivity. }
      split. { exact Hnp. }
      split. { etrans; eassumption. }
      split. { exact Hrows2. }
      split. { apply Hstop. }
      change (rows_inserted (GetPage p :: evs_i)) with (rows_inserted evs_i).
      cbn [new_count message].
      split. { lia. }
      split. { intros H. rewrite H in Hadded. cbn in Hadded. lia. }
      split. { exact Hrej. }
      exists p. rewrite Hpages1. split; reflexivity.
    + apply Z.ltb_ge in Hpos.
      assert (Hnone : rows_inserted evs_i = []).
      { destruct (rows_inserted evs_i); [reflexivity|]. cbn in Hadded. lia. }
      rewrite Hnone in Hadded. cbn in Hadded. subst added.
      rewrite Z.add_0_r in E.
      destruct (IH _ _ _ _ _ E)
        as (evs_r & k & Ht3 & Hk & Hpgr & Hnpr & Hpre3 & Hrows3 & Hstopr & Hr).
      exists ((GetPage p :: evs_i) ++ evs_r), (S k).
      split. { rewrite Ht3, Ht2, Ht1, <- !app_assoc. reflexivity. }
      split. { cbn. lia. }
      split. { rewrite pages_visited_app, Hpages1, Hpgr. reflexivity. }
      split. { apply no_page_after_insert_app; [exact Hnone | exact Hnpr]. }
      split. { etrans; [exact Hpre1|]. etrans; eassumption. }
      rewrite pages_visited_app, rows_inserted_app, rejected_urls_app, Hpages1.
      change (rows_inserted (GetPage p :: evs_i)) with (rows_inserted evs_i).
      change (rejected_urls (GetPage p :: evs_i)) with (rejected_urls evs_i).
      rewrite Hnone, Hrej. cbn [app].
      split. { exact Hrows3. }
      split.
      { intros p' Hp' Hempty. apply elem_of_cons in Hp' as [->|Hp']; [congruence|].
        destruct (Hstopr p' Hp' Hempty) as [Hlast ->]. split; [|reflexivity].
        rewrite last_cons, Hlast. reflexivity. }
      destruct r as [[resp|t]|e]; [|exact Hr|exact Hr].
      destruct Hr as (H1 & H2 & H3 & p' & Hlast & Hmsg).
      repeat (split; [assumption|]).
      exists p'. split; [|exact Hmsg]. rewrite last_cons, Hlast. reflexivity.
  - injection E as <- <-. destruct Hri as (evs0 & u & Hrej0 & He).
    exists (GetPage p :: evs_i), 1%nat.
    split. { rewrite Ht2, Ht1, <- app_assoc. reflexivity. }
    split. { cbn. lia. }
    split. { rewrite Hpages1. reflexivity. }
    split. { exact Hnp. }
    split. { etrans; eassumption. }
    split. { exact Hrows2. }
    split. { apply Hstop. }
    change (rejected_urls (GetPage p :: evs_i)) with (rejected_urls evs_i).
    destruct He as [[-> ->]|[-> ->]]; [left|right]; (split; [reflexivity|]);
      rewrite rejected_urls_app, Hrej0; cbn.
    + discriminate.
    + reflexivity.
Qed.

End Pages.

(** ** The endpoints *)

Lemma append_cancel_l (s x y : string) : s +:+ x = s +:+ y -> x = y.
Proof.
  induction s as [|c s IH]; cbv [String.append]; fold String.append.
  - auto.
  - intros [= H]. auto.
Qed.

Lemma checked_message_not_added n : checked_message <> added_message n.
Proof. unfold checked_message, added_message. cbv [String.append]. discriminate. Qed.

Lemma added_from_page_message_not_added n p :
  added_from_page_message n p <> added_message n.
Proof.
  unfold added_from_page_message, added_message. intros H.
  apply append_cancel_l, append_cancel_l in H.
  cbv [String.append] in H. discriminate H.
Qed.

Lemma range_max_attempts : range max_attempts = [0; 1; 2; 3; 4].
Proof. reflexivity. Qed.


Lemma pages_below_last cp k p q :
  last ((fun a => cp + a + 1) <$> take k (range max_attempts)) = Some p ->
  q ∈ (fun a => cp + a + 1) <$> take k (range max_attempts) ->
  q <= p.
Proof.
  rewrite range_max_attempts.
  destruct k as [|[|[|[|[|[|k]]]]]]; cbn [take fmap list_fmap last];
    intros [= <-] Hq;
    repeat (apply elem_of_cons in Hq as [->|Hq]; [lia|]);
    apply elem_of_nil in Hq as [].
Qed.

Section Endpoints.

Variable w : World.

Lemma fetch_more_letters_eq request st :
  fetch_more_letters w request st
  = match fetch_more_loop w (range max_attempts) (current_page request) 0 st with
    | (Ok (inl resp), st') => (Http200 resp, st')
    | (Ok (inr t), st') =>
        (Http200 {| new_count := t;
                    message := if t =? 0 then checked_message else added_message t |},
         st')
    | (Raise e, st') => (Http500 e, st')
    end.
Proof.
  unfold fetch_more_letters, endpoint, bind.
  destruct (fetch_more_loop _ _ _ _ _) as [[[resp|t]|e] st']; reflexivity.
Qed.

Lemma fetch_new_letters_eq st :
  fetch_new_letters w st
  = match ingest_letters w (page_letters w 1) 0
                         (after_suspend w (with_event (GetPage 1) st)) with
    | (Ok n, st') =>
        (Http200 {| new_count := n;
                    message := if 0 <? n then added_message n
                               else "No new letters found" |},
         st')
    | (Raise e, st') => (Http500 e, st')
    end.
Proof.
  unfold fetch_new_letters, endpoint. unfold bind at 1.
  rewrite fetch_letters_page_eq. unfold bind at 1.
  destruct (ingest_letters _ _ _ _) as [[n|e] st']; reflexivity.
Qed.

(** What a [fetch_more_letters] call leaves behind, in any world. *)
Lemma fetch_more_letters_spec request st r st' :
  fetch_more_letters w request (begin st) = (r, st') ->
  (exists k, (k <= 5)%nat
             /\ pages_visited (trace st')
                = (fun a => current_page request + a + 1) <$> take k (range max_attempts))
  /\ no_page_after_insert (trace st')
  /\ (forall row, row ∈ rows_inserted (trace st') -> row ∈ table st')
  /\ (forall p, p ∈ pages_visited (trace st') -> page_letters w p = [] ->
                last (pages_visited (trace st')) = Some p
                /\ rows_inserted (trace st') = []
                /\ r = Http200 {| new_count := 0; message := checked_message |})
  /\ match r with
     | Http200 resp =>
         new_count resp = Z.of_nat (length (rows_inserted (trace st')))
         /\ rejected_urls (trace st') = []
         /\ ((resp = {| new_count := 0; message := checked_message |}
              /\ rows_inserted (trace st') = [])
             \/ (0 < new_count resp
                 /\ exists p, last (pages_visited (trace st')) = Some p
                              /\ message resp = added_from_page_message (new_count resp) p))
     | Http500 e =>
         e = IntegrityError /\ rejected_urls (trace st') <> []
         \/ e = OperationalError /\ rejected_urls (trace st') = []
     | Http422 => False
     end.
Proof.
  rewrite fetch_more_letters_eq.
  destruct (fetch_more_loop w (range max_attempts) (current_page request) 0 (begin st))
    as [r0 st0] eqn:E.
  apply fetch_more_loop_spec in E
    as (evs & k & Ht & Hk & Hpg & Hnp & _ & Hrows & Hstop & Hr).
  cbn [begin trace app] in Ht.
  intros Hrun.
  assert (st0 = st') as ->. { destruct r0 as [[|]|]; injection Hrun; auto. }
  rewrite Ht.
  split. { exists k. split; [exact Hk | exact Hpg]. }
  split. { exact Hnp. }
  split. { exact Hrows. }
  destruct r0 as [[resp|t]|e]; injection Hrun as <-.
  - destruct Hr as (Hn & Hne & Hrej & p & Hlast & Hmsg).
    split. { intros p' Hp' He. destruct (Hstop p' Hp' He) as [_ [=]]. }
    split; [lia|]. split; [exact Hrej|]. right. split.
    + destruct (rows_inserted evs); [congruence | cbn in Hn; lia].
    + eauto.
  - destruct Hr as (-> & Hnone & Hrej). cbn [Z.eqb].
    split. { intros p' Hp' He. destruct (Hstop p' Hp' He) as [Hl _]. auto. }
    rewrite Hnone. cbn. auto.
  - split. { intros p' Hp' He. destruct (Hstop p' Hp' He) as [_ [=]]. }
    exact Hr.
Qed.

(** What a [fetch_new_letters] call leaves behind, in any world. *)
Lemma fetch_new_letters_spec st r st' :
  fetch_new_letters w (begin st) = (r, st') ->
  pages_visited (trace st') = [1]
  /\ (forall row, row ∈ rows_inserted (trace st') -> row ∈ table st')
  /\ table st `prefix_of` table st'
  /\ match r with
     | Http200 resp =>
         new_count resp = Z.of_nat (length (rows_inserted (trace st')))
         /\ rejected_urls (trace st') = []
         /\ forall l, l ∈ page_letters w 1 -> url_in_table (url l) (table st') = true
     | Http500 e =>
         e = IntegrityError /\ rejected_urls (trace st') <> []
         \/ e = OperationalError /\ rejected_urls (trace st') = []
     | Http422 => False
     end.
Proof.
  rewrite fetch_new_letters_eq.
  set (st1 := after_suspend w (with_event (GetPage 1) (begin st))).
  assert (Hpre1 : table st `prefix_of` table st1)
    by apply (after_suspend_prefix w (with_event (GetPage 1) (begin st))).
  destruct (ingest_letters w (page_letters w 1) 0 st1) as [r0 st0] eqn:E.
  apply ingest_letters_spec in E as (evs & Ht & Hpg & Hpre & Hrows & Hr).
  change (trace st1) with [GetPage 1] in Ht.
  intros Hrun.
  assert (st0 = st') as ->. { destruct r0; injection Hrun; auto. }
  rewrite Ht.
  change (pages_visited ([GetPage 1] ++ evs)) with (1 :: pages_visited evs).
  change (rows_inserted ([GetPage 1] ++ evs)) with (rows_inserted evs).
  change (rejected_urls ([GetPage 1] ++ evs)) with (rejected_urls evs).
  rewrite Hpg. split; [reflexivity|]. split; [exact Hrows|].
  split; [etrans; eassumption|].
  destruct r0 as [n|e]; injection Hrun as <-.
  - destruct Hr as (-> & Hrej & Hall). cbn [new_count]. auto.
  - destruct Hr as (evs0 & u & Hrej0 & [[-> ->]|[-> ->]]); [left|right];
      (split; [reflexivity|]); rewrite rejected_urls_app, Hrej0; cbn.
    + discriminate.
    + reflexivity.
Qed.

End Endpoints.

(** C9. When the page loop of [fetch_more_letters] ends without the
    [return] inside it (the attempts are used up, or an empty page breaks
    it), the accumulated total is 0: the branch after the loop that would
    report "Added N new letter(s)" is never taken, and a response is either
    the early one, with a positive count and its page, or the one with
    count 0. *)
Theorem fetch_more_fallthrough_reports_zero
        (w : World) (request : FetchMoreRequest) (st : State) :
  (forall t st',
      fetch_more_loop w (range max_attempts) (current_page request) 0 (begin st)
      = (Ok (inr t), st') ->
      t = 0 /\ rows_inserted (trace st') = [])
  /\ (forall resp st',
        fetch_more_letters w request (begin st) = (Http200 resp, st') ->
        message resp <> added_message (new_count resp)
        /\ (resp = {| new_count := 0; message := checked_message |}
            \/ (0 < new_count resp
                /\ exists p, message resp = added_from_page_message (new_count resp) p))).
Proof.
  split.
  - intros t st' E.
    apply fetch_more_loop_spec in E
      as (evs & k & Ht & _ & _ & _ & _ & _ & _ & -> & Hnone & _).
    rewrite Ht. split; [reflexivity | exact Hnone].
  - intros resp st' E.
    apply fetch_more_letters_spec in E as (_ & _ & _ & _ & _ & _ & [[-> _]|[Hpos [p [_ Hmsg]]]]).
    + split; [apply checked_message_not_added | left; reflexivity].
    + split; [rewrite Hmsg; apply added_from_page_message_not_added | right; eauto].
Qed.

Lemma fetch_more_fallthrough_reports_zero_witness :
  fetch_more_letters history_world (from_page 3) (begin trade_stored)
  = (Http200 {| new_count := 0; message := checked_message |},
     (fetch_more_letters history_world (from_page 3) (begin trade_stored)).2)
  /\ message {| new_count := 0; message := checked_message |} <> added_message 0.
Proof.
  assert (E : fetch_more_letters history_world (from_page 3) (begin trade_stored)
              = (Http200 {| new_count := 0; message := checked_message |},
                 (fetch_more_letters history_world (from_page 3) (begin trade_stored)).2))
    by (vm_compute; reflexivity).
  split; [exact E|].
  exact (proj1 (proj2 (fetch_more_fallthrough_reports_zero
                         history_world (from_page 3) trade_stored) _ _ E)).
Defined.

(** C3. In [fetch_more_letters], a fetched page without candidates ends
    the page loop: it is the last page fetched, no page with a higher number
    is fetched, nothing has been inserted, and the call answers with the
    total so far, which is 0. *)
Theorem empty_page_stops_fetch_more
        (w : World) (request : FetchMoreRequest) (st : State) (p : Z) :
  p ∈ pages_visited (trace (fetch_more_letters w request (begin st)).2) ->
  page_letters w p = [] ->
  last (pages_visited (trace (fetch_more_letters w request (begin st)).2)) = Some p
  /\ (forall q, q ∈ pages_visited (trace (fetch_more_letters w request (begin st)).2) ->
                q <= p)
  /\ rows_inserted (trace (fetch_more_letters w request (begin st)).2) = []
  /\ (fetch_more_letters w request (begin st)).1
     = Http200 {| new_count := 0; message := checked_message |}.
Proof.
  destruct (fetch_more_letters w request (begin st)) as [r st'] eqn:E.
  cbn [fst snd]. intros Hp Hempty.
  apply fetch_more_letters_spec in E as ((k & _ & Hpages) & _ & _ & Hstop & _).
  destruct (Hstop p Hp Hempty) as (Hlast & Hnone & Hr).
  split; [exact Hlast|]. split; [|split; assumption].
  intros q Hq. rewrite Hpages in Hlast, Hq.
  eapply pages_below_last; eassumption.
Qed.

Lemma empty_page_stops_fetch_more_witness :
  pages_visited (trace (fetch_more_letters history_world (from_page 3)
                                           (begin trade_stored)).2) = [4; 5]
  /\ page_letters history_world 5 = []
  /\ (fetch_more_letters history_world (from_page 3) (begin trade_stored)).1
     = Http200 {| new_count := 0; message := checked_message |}.
Proof.
  assert (Hpages : pages_visited (trace (fetch_more_letters history_world (from_page 3)
                                           (begin trade_stored)).2) = [4; 5])
    by (vm_compute; reflexivity).
  assert (Hempty : page_letters history_world 5 = []) by (vm_compute; reflexivity).
  split; [exact Hpages|]. split; [exact Hempty|].
  refine (proj2 (proj2 (proj2 (empty_page_stops_fetch_more
                                 history_world (from_page 3) trade_stored 5 _ Hempty)))).
  rewrite Hpages. apply list_elem_of_further, list_elem_of_here.
Defined.

(** C1, as the code has it. An [IntegrityError] raised by
    [insert_letter], for a locator that another request stored between the
    existence check and the insert, is not caught by the endpoint's loop: the
    invocation fails with status 500 and reports no count; the rows it
    inserted before stay in the table. An invocation that succeeds has met
    no rejected insert and counts exactly its own inserts. This holds for
    [run_fetch_new] and [run_fetch_more]. *)
Theorem rejected_insert_fails_invocation (w : World) (s : Z) (st : State) :
  (forall r st',
      run_fetch_new w (begin st) = (r, st') ->
      (rejected_urls (trace st') <> [] -> r = Http500 IntegrityError)
      /\ (forall resp, r = Http200 resp ->
            rejected_urls (trace st') = []
            /\ new_count resp = Z.of_nat (length (rows_inserted (trace st'))))
      /\ (forall row, row ∈ rows_inserted (trace st') -> row ∈ table st'))
  /\ (forall r st',
        run_fetch_more w s (begin st) = (r, st') ->
        (rejected_urls (trace st') <> [] -> r = Http500 IntegrityError)
        /\ (forall resp, r = Http200 resp ->
              rejected_urls (trace st') = []
              /\ new_count resp = Z.of_nat (length (rows_inserted (trace st'))))
        /\ (forall row, row ∈ rows_inserted (trace st') -> row ∈ table st')).
Proof.
  split.
  - intros r st' E. unfold run_fetch_new in E.
    apply fetch_new_letters_spec in E as (_ & Hrows & _ & Hr).
    split; [|split; [|exact Hrows]].
    + intros Hrej. destruct r as [resp| |e]; [|contradiction|].
      * destruct Hr as (_ & H & _). contradiction.
      * destruct Hr as [[-> _]|[_ H]]; [reflexivity | contradiction].
    + intros resp ->. destruct Hr as (Hn & Hrej & _). auto.
  - intros r st'. unfold run_fetch_more, post_fetch_more.
    destruct (validate_FetchMoreRequest (Some s)) as [request|].
    + intros E.
      apply fetch_more_letters_spec in E as (_ & _ & Hrows & _ & Hr).
      split; [|split; [|exact Hrows]].
      * intros Hrej. destruct r as [resp| |e]; [|contradiction|].
        -- destruct Hr as (_ & H & _). contradiction.
        -- destruct Hr as [[-> _]|[_ H]]; [reflexivity | contradiction].
      * intros resp ->. destruct Hr as (Hn & Hrej & _). auto.
    + intros [= <- <-]. cbn. split; [congruence|].
      split; [discriminate|]. intros row H. apply elem_of_nil in H as [].
Qed.

Lemma rejected_insert_fails_invocation_witness :
  rejected_urls (trace (run_fetch_new race_world (begin empty_store)).2) <> []
  /\ (run_fetch_new race_world (begin empty_store)).1 = Http500 IntegrityError.
Proof.
  assert (Hrej : rejected_urls (trace (run_fetch_new race_world (begin empty_store)).2) <> [])
    by (vm_compute; discriminate).
  split; [exact Hrej|].
  exact (proj1 (proj1 (rejected_insert_fails_invocation race_world 1 empty_store)
                      _ _ (surjective_pairing _)) Hrej).
Defined.

(** C1, as stated, fails: while this request awaits the detail page of the
    first letter another request stores that letter; the insert is rejected
    and the invocation does not return a response. *)
Lemma duplicate_insert_race_not_benign :
  rejected_urls (trace (run_fetch_new race_world empty_store).2) = [labor_url]
  /\ ~ (exists resp, (run_fetch_new race_world empty_store).1 = Http200 resp).
Proof.
  split; [vm_compute; reflexivity|].
  intros [resp H]. vm_compute in H. discriminate H.
Qed.

(** ** A world in which nothing else touches the store *)

Lemma page_letters_inv w page :
  NoDup (url <$> page_letters w page)
  /\ forall l, l ∈ page_letters w page ->
       content l = summary_or_title (summary l) (title l).
Proof.
  unfold page_letters. destruct (client_get w (page_url w page)) as [html|e]; cbn [rbind].
  - destruct (parse_letter_list (soup_links w) html) as [letters|e] eqn:Hp.
    + destruct (parse_letter_list_inv _ _ _ Hp) as [Hnd Hall].
      split; [exact Hnd|]. intros l Hl.
      destruct (Hall l Hl) as (all_links & i & link & _ & _ & Hc).
      apply link_candidate_Some in Hc. tauto.
    + split; [constructor|]. intros l Hl. apply elem_of_nil in Hl as [].
  - split; [constructor|]. intros l Hl. apply elem_of_nil in Hl as [].
Qed.

Lemma url_in_table_snoc_other u tbl row :
  row_url row <> u -> url_in_table u (tbl ++ [row]) = url_in_table u tbl.
Proof.
  intros Hne. rewrite url_in_table_app. cbn.
  apply String.eqb_neq in Hne. rewrite Hne, !orb_false_r. reflexivity.
Qed.

Section Quiet.

Variable w : World.
Hypothesis Hquiet : quiet w.

Lemma after_suspend_unlocked e st :
  locked st = false -> locked (after_suspend w (with_event e st)) = false.
Proof. intros H. rewrite (after_suspend_quiet_locked w _ Hquiet). exact H. Qed.

(** With nothing else touching the store and no lock left behind, no
    insert is rejected or blocked: the loop returns the number of candidates
    that were not in the table, and each of them is stored as
    [stored_letter] makes it. *)
Lemma ingest_letters_quiet letters : forall count st,
  locked st = false ->
  NoDup (url <$> letters) ->
  exists st',
    ingest_letters w letters count st
    = (Ok (count + Z.of_nat (length (new_letters (table st) letters))), st')
    /\ locked st' = false
    /\ table st `prefix_of` table st'
    /\ forall l, l ∈ letters -> url_in_table (url l) (table st) = false ->
         exists tbl, row_of_letter tbl (stored_letter w l) ∈ table st'.
Proof.
  induction letters as [|l rest IH]; intros count st Hlk Hnd.
  { exists st. cbn. rewrite Z.add_0_r. split; [reflexivity|]. split; [exact Hlk|].
    split; [reflexivity|]. intros l H. apply elem_of_nil in H as []. }
  rewrite fmap_cons in Hnd. apply NoDup_cons in Hnd as [Hfresh Hnd].
  rewrite ingest_letters_cons. unfold new_letters. cbn [List.filter].
  fold (new_letters (table st) rest).
  destruct (url_in_table (url l) (table st)) eqn:Hknown; cbn [negb].
  { destruct (IH count st Hlk Hnd) as (st' & E & Hlk' & Hpre & Hall).
    exists st'. split; [exact E|]. split; [exact Hlk'|]. split; [exact Hpre|].
    intros l' Hl' Hnew. apply elem_of_cons in Hl' as [->|Hl']; [congruence | auto]. }
  cbv zeta.
  set (st1 := after_suspend w (with_event (GetContent (url l)) st)).
  assert (Htbl : table st1 = table st)
    by apply (after_suspend_quiet w (with_event (GetContent (url l)) st) Hquiet).
  assert (Hlk1 : locked st1 = false) by apply after_suspend_unlocked, Hlk.
  rewrite Hlk1, Htbl, Hknown.
  set (row := row_of_letter (table st) (stored_letter w l)).
  destruct (IH (count + 1) (with_row row st1) Hlk1 Hnd) as (st' & E & Hlk' & Hpre & Hall).
  cbn [with_row table] in E, Hpre, Hall. rewrite Htbl in E, Hpre, Hall.
  assert (Hsame : new_letters (table st ++ [row]) rest = new_letters (table st) rest).
  { unfold new_letters. apply List.filter_ext_in. intros l' Hl'.
    rewrite url_in_table_snoc_other; [reflexivity|].
    unfold row. cbn [row_of_letter new_row row_url]. rewrite url_stored_letter.
    intros Heq. apply Hfresh. rewrite Heq.
    apply list_elem_of_fmap. exists l'. split; [reflexivity|].
    apply list_elem_of_In, Hl'. }
  rewrite Hsame in E.
  exists st'. split.
  { rewrite E. cbn [length]. do 2 f_equal. lia. }
  split. { exact Hlk'. }
  split. { etrans; [|exact Hpre]. apply prefix_app_r. reflexivity. }
  intros l' Hl' Hnew. apply elem_of_cons in Hl' as [->|Hl'].
  - exists (table st). eapply elem_of_prefix_of; [exact Hpre|].
    apply elem_of_app. right. apply list_elem_of_here.
  - apply Hall; [exact Hl'|].
    rewrite url_in_table_snoc_other; [exact Hnew|].
    unfold row. cbn [row_of_letter new_row row_url]. rewrite url_stored_letter.
    intros Heq. apply Hfresh. rewrite Heq.
    apply list_elem_of_fmap. exists l'. split; [reflexivity | exact Hl'].
Qed.

Lemma new_letters_nil_known t letters :
  new_letters t letters = [] ->
  forall l, l ∈ letters -> url_in_table (url l) t = true.
Proof.
  intros H l Hl. destruct (url_in_table (url l) t) eqn:E; [reflexivity|].
  assert (Hin : l ∈ new_letters t letters).
  { unfold new_letters. apply list_elem_of_In, filter_In.
    split; [apply list_elem_of_In, Hl | rewrite E; reflexivity]. }
  rewrite H in Hin. apply elem_of_nil in Hin as [].
Qed.

(** The loop over the pages, under the same conditions: it raises nothing,
    and every candidate of a page it fetched that was not in the table when
    it began is in the table when it ends. *)
Lemma fetch_more_loop_quiet_stored attempts : forall cp total st,
  locked st = false ->
  exists r st' evs,
    fetch_more_loop w attempts cp total st = (Ok r, st')
    /\ trace st' = trace st ++ evs
    /\ locked st' = false
    /\ table st `prefix_of` table st'
    /\ forall p l, p ∈ pages_visited evs -> l ∈ page_letters w p ->
         url_in_table (url l) (table st) = false ->
         exists tbl, row_of_letter tbl (stored_letter w l) ∈ table st'.
Proof.
  induction attempts as [|a rest IH]; intros cp total st Hlk.
  { exists (inr total), st, []. rewrite app_nil_r.
    split; [reflexivity|]. split; [reflexivity|]. split; [exact Hlk|].
    split; [reflexivity|]. intros p l H. apply elem_of_nil in H as []. }
  rewrite fetch_more_loop_cons. cbv zeta.
  set (p := cp + a + 1).
  set (st1 := after_suspend w (with_event (GetPage p) st)).
  assert (Htbl : table st1 = table st)
    by apply (after_suspend_quiet w (with_event (GetPage p) st) Hquiet).
  assert (Hlk1 : locked st1 = false) by apply after_suspend_unlocked, Hlk.
  assert (Ht1 : trace st1 = trace st ++ [GetPage p]) by reflexivity.
  destruct (page_letters_inv w p) as [Hnd _].
  destruct (page_letters w p) as [|l ls] eqn:Hpage.
  { exists (inr total), st1, [GetPage p].
    split; [reflexivity|]. split; [exact Ht1|]. split; [exact Hlk1|].
    split; [rewrite Htbl; reflexivity|].
    intros p' l' Hp' Hl'. cbn in Hp'. apply list_elem_of_singleton in Hp' as ->.
    rewrite Hpage in Hl'. apply elem_of_nil in Hl' as []. }
  destruct (ingest_letters_quiet (l :: ls) 0 st1 Hlk1 Hnd)
    as (st2 & E & Hlk2 & Hpre2 & Hall2).
  rewrite Htbl in E, Hpre2, Hall2.
  pose proof (ingest_letters_spec w _ _ _ _ _ E) as (evs_i & Ht2 & Hpg & _).
  assert (Hpages1 : pages_visited (GetPage p :: evs_i) = [p]).
  { change (pages_visited (GetPage p :: evs_i)) with (p :: pages_visited evs_i).
    rewrite Hpg. reflexivity. }
  rewrite E.
  destruct (0 <? 0 + Z.of_nat (length (new_letters (table st) (l :: ls)))) eqn:Hpos.
  { eexists _, st2, (GetPage p :: evs_i). split; [reflexivity|].
    split; [rewrite Ht2, Ht1, <- app_assoc; reflexivity|].
    split; [exact Hlk2|]. split; [exact Hpre2|].
    intros p' l' Hp' Hl' Hnew. rewrite Hpages1 in Hp'.
    apply list_elem_of_singleton in Hp' as ->. rewrite Hpage in Hl'. auto. }
  assert (Hnone : new_letters (table st) (l :: ls) = []).
  { apply Z.ltb_ge in Hpos. destruct (new_letters (table st) (l :: ls));
      [reflexivity | cbn [length] in Hpos; lia]. }
  assert (E1 : ingest_letters w (l :: ls) 0 st1 = (Ok 0, st1)).
  { apply ingest_letters_known. rewrite Htbl. apply new_letters_nil_known, Hnone. }
  rewrite E1 in E. injection E as _ <-.
  destruct (IH cp (total + (0 + Z.of_nat (length (new_letters (table st) (l :: ls))))) st1 Hlk1)
    as (r & st' & evs_r & E' & Ht3 & Hlk3 & Hpre3 & Hall3).
  exists r, st', (GetPage p :: evs_r). split; [exact E'|].
  split; [rewrite Ht3, Ht1, <- app_assoc; reflexivity|].
  split; [exact Hlk3|]. split; [rewrite <- Htbl; exact Hpre3|].
  intros p' l' Hp' Hl' Hnew.
  change (pages_visited (GetPage p :: evs_r)) with (p :: pages_visited evs_r) in Hp'.
  apply elem_of_cons in Hp' as [->|Hp'].
  - rewrite Hpage in Hl'.
    rewrite (new_letters_nil_known _ _ Hnone l' Hl') in Hnew. discriminate Hnew.
  - apply (Hall3 p' l' Hp' Hl'). rewrite Htbl. exact Hnew.
Qed.

(** While the lock is held, the first candidate that is not in the table
    ends the loop: its insert is blocked and nothing is added. *)
Lemma ingest_letters_locked letters : forall count st,
  locked st = true ->
  (forall l, l ∈ letters -> url_in_table (url l) (table st) = true)
  \/ exists st', ingest_letters w letters count st = (Raise OperationalError, st')
                 /\ table st' = table st.
Proof.
  induction letters as [|l rest IH]; intros count st Hlk.
  { left. intros l H. apply elem_of_nil in H as []. }
  rewrite ingest_letters_cons.
  destruct (url_in_table (url l) (table st)) eqn:Hknown.
  - destruct (IH count st Hlk) as [H|H]; [left | right; exact H].
    intros l' Hl'. apply elem_of_cons in Hl' as [->|Hl']; auto.
  - right. cbv zeta.
    set (st1 := after_suspend w (with_event (GetContent (url l)) st)).
    assert (Hlk1 : locked st1 = true).
    { unfold st1. rewrite (after_suspend_quiet_locked w _ Hquiet). exact Hlk. }
    rewrite Hlk1. eexists. split; [reflexivity|].
    apply (after_suspend_quiet w (with_event (GetContent (url l)) st) Hquiet).
Qed.

End Quiet.

Lemma letter_content_transport_failure w u e :
  client_get w u = Raise e -> letter_content w u = "".
Proof. intros H. unfold letter_content. rewrite H. reflexivity. Qed.

(** C4. [run_fetch_new] is idempotent against an unchanged first listing
    page: after a call that completed, a second call that finds the same
    candidates on page 1 inserts nothing and reports [new_count = 0]. *)
Theorem run_fetch_new_idempotent
        (w1 w2 : World) (st : State) (resp1 : FetchResponse) (st1 : State) :
  run_fetch_new w1 (begin st) = (Http200 resp1, st1) ->
  page_letters w2 1 = page_letters w1 1 ->
  (run_fetch_new w2 (begin st1)).1
  = Http200 {| new_count := 0; message := "No new letters found" |}
  /\ rows_inserted (trace (run_fetch_new w2 (begin st1)).2) = []
  /\ (quiet w2 -> table (run_fetch_new w2 (begin st1)).2 = table st1).
Proof.
  intros E1 Hsame. unfold run_fetch_new in *.
  apply fetch_new_letters_spec in E1 as (_ & _ & _ & _ & _ & Hall).
  rewrite fetch_new_letters_eq.
  set (st2 := after_suspend w2 (with_event (GetPage 1) (begin st1))).
  assert (Hpre : table st1 `prefix_of` table st2)
    by apply (after_suspend_prefix w2 (with_event (GetPage 1) (begin st1))).
  rewrite ingest_letters_known.
  - cbn [fst snd Z.ltb Z.compare]. split; [reflexivity|]. split; [reflexivity|].
    intros Hq. apply (after_suspend_quiet w2 (with_event (GetPage 1) (begin st1)) Hq).
  - intros l Hl. rewrite Hsame in Hl.
    eapply url_in_table_prefix; [exact Hpre | exact (Hall l Hl)].
Qed.

Lemma run_fetch_new_idempotent_witness :
  (run_fetch_new history_world (begin empty_store)).1
  = Http200 {| new_count := 1; message := added_message 1 |}
  /\ (run_fetch_new history_world
                    (begin (run_fetch_new history_world (begin empty_store)).2)).1
     = Http200 {| new_count := 0; message := "No new letters found" |}.
Proof.
  assert (E : run_fetch_new history_world (begin empty_store)
              = (Http200 {| new_count := 1; message := added_message 1 |},
                 (run_fetch_new history_world (begin empty_store)).2))
    by (vm_compute; reflexivity).
  split; [rewrite E; reflexivity|].
  exact (proj1 (run_fetch_new_idempotent history_world history_world
                  empty_store _ _ E eq_refl)).
Defined.

(** C7, as the code has it. With nothing else touching the store
    meanwhile (the spec's one invocation at a time) and no write lock left
    behind by an earlier rejected insert, a candidate that is not in the table
    and whose detail fetch fails at transport level or yields empty text is
    still inserted, by [run_fetch_new] when it is on page 1 and by
    [fetch_more_letters] when it is on a page that the call fetches; its
    stored body is its excerpt when a non-empty excerpt was found on the
    listing page, and its title otherwise. *)
Theorem detail_failure_keeps_candidate
        (w : World) (request : FetchMoreRequest) (st : State) (l : LetterData) :
  quiet w ->
  locked st = false ->
  url_in_table (url l) (table st) = false ->
  ((exists e, client_get w (url l) = Raise e) \/ letter_content w (url l) = "") ->
  (l ∈ page_letters w 1 ->
   (exists resp, (run_fetch_new w (begin st)).1 = Http200 resp)
   /\ exists row,
        row ∈ table (run_fetch_new w (begin st)).2 /\ stored_as_listed l row)
  /\ (forall p,
        p ∈ pages_visited (trace (fetch_more_letters w request (begin st)).2) ->
        l ∈ page_letters w p ->
        (exists resp, (fetch_more_letters w request (begin st)).1 = Http200 resp)
        /\ exists row,
             row ∈ table (fetch_more_letters w request (begin st)).2
             /\ stored_as_listed l row).
Proof.
  intros Hq Hlk Hnew Hfail.
  assert (Hempty : letter_content w (url l) = "").
  { destruct Hfail as [[e He]|H]; [|exact H].
    eapply letter_content_transport_failure, He. }
  assert (Hstored : stored_letter w l = l).
  { unfold stored_letter. rewrite Hempty. reflexivity. }
  assert (Hrow : forall p tbl, l ∈ page_letters w p ->
                               stored_as_listed l (row_of_letter tbl l)).
  { intros p tbl Hl. unfold stored_as_listed.
    cbn [row_of_letter new_row row_url row_title row_publication_date
         row_summary row_content].
    repeat (split; [reflexivity|]). apply (page_letters_inv w p), Hl. }
  split.
  - intros Hl. unfold run_fetch_new. rewrite fetch_new_letters_eq.
    set (st1 := after_suspend w (with_event (GetPage 1) (begin st))).
    assert (Htbl : table st1 = table st)
      by apply (after_suspend_quiet w (with_event (GetPage 1) (begin st)) Hq).
    assert (Hlk1 : locked st1 = false)
      by apply (after_suspend_unlocked w Hq (GetPage 1) (begin st)), Hlk.
    destruct (ingest_letters_quiet w Hq (page_letters w 1) 0 st1 Hlk1
                (proj1 (page_letters_inv w 1)))
      as (st' & E & _ & _ & Hall).
    rewrite E. cbn [fst snd]. split; [eauto|].
    rewrite Htbl in Hall. destruct (Hall l Hl Hnew) as [tbl Hin].
    rewrite Hstored in Hin. exists (row_of_letter tbl l). split; [exact Hin|].
    apply (Hrow 1), Hl.
  - intros p. rewrite fetch_more_letters_eq.
    destruct (fetch_more_loop_quiet_stored w Hq (range max_attempts)
                (current_page request) 0 (begin st) Hlk)
      as (r & st' & evs & E & Ht & _ & _ & Hall).
    cbn [begin trace table app] in Ht, Hall. rewrite E.
    assert (Hsnd : forall resp : FetchResponse,
               trace (Http200 resp, st').2 = evs /\ table (Http200 resp, st').2 = table st').
    { intros resp. split; [exact Ht | reflexivity]. }
    assert (Hgoal : p ∈ pages_visited evs -> l ∈ page_letters w p ->
                    exists row, row ∈ table st' /\ stored_as_listed l row).
    { intros Hp Hl. destruct (Hall p l Hp Hl Hnew) as [tbl Hin].
      rewrite Hstored in Hin. exists (row_of_letter tbl l). split; [exact Hin|].
      apply (Hrow p), Hl. }
    destruct r as [resp|t]; cbn [fst snd]; rewrite Ht;
      (intros Hp Hl; split; [eauto | exact (Hgoal Hp Hl)]).
Qed.

Lemma detail_failure_keeps_candidate_witness :
  client_get history_world labor_url = Raise HTTPError
  /\ (exists row,
        row ∈ table (run_fetch_new history_world (begin empty_store)).2
        /\ stored_as_listed labor_letter row
        /\ row_content row = "A short excerpt.")
  /\ client_get history_world housing_url = Raise HTTPError
  /\ (exists row,
        row ∈ table (fetch_more_letters history_world (from_page 1) (begin empty_store)).2
        /\ stored_as_listed housing_letter row
        /\ row_content row = "Housing Supply Constraints").
Proof.
  split; [reflexivity|]. split.
  - destruct (proj1 (detail_failure_keeps_candidate history_world (from_page 1)
                       empty_store labor_letter (fun _ => eq_refl) eq_refl eq_refl
                       (or_introl (ex_intro _ HTTPError eq_refl)))
                    (list_elem_of_here _ _))
      as (_ & row & Hin & Hrow).
    exists row. split; [exact Hin|]. split; [exact Hrow|]. apply Hrow.
  - split; [reflexivity|].
    destruct (proj2 (detail_failure_keeps_candidate history_world (from_page 1)
                       empty_store housing_letter (fun _ => eq_refl) eq_refl eq_refl
                       (or_introl (ex_intro _ HTTPError eq_refl)))
                    2 (list_elem_of_here _ _) (list_elem_of_here _ _))
      as (_ & row & Hin & Hrow).
    exists row. split; [exact Hin|]. split; [exact Hrow|]. apply Hrow.
Defined.

(** C7, as stated, fails on an excerpt that is found but empty: the
    paragraph next to the link is empty, the detail page does not answer, and
    the letter is stored with the empty excerpt and with its title as body.
    It also fails while the write lock of an earlier rejected insert is
    held: the candidate's insert is blocked, the call answers 500 and the
    candidate is not stored. *)
Lemma empty_excerpt_stored_with_title :
  (summary <$> page_letters empty_excerpt_world 1 = [Some ""]
   /\ client_get empty_excerpt_world labor_url = Raise HTTPError
   /\ exists row,
        table (run_fetch_new empty_excerpt_world empty_store).2 = [row]
        /\ row_url row = labor_url
        /\ row_summary row = Some ""
        /\ row_content row = "Labor Markets and Inflation"
        /\ Some (row_content row) <> row_summary row)
  /\ (page_letters history_world 1 = [labor_letter]
      /\ client_get history_world labor_url = Raise HTTPError
      /\ (run_fetch_new history_world (with_lock empty_store)).1 = Http500 OperationalError
      /\ table (run_fetch_new history_world (with_lock empty_store)).2 = []).
Proof.
  split.
  - split; [vm_compute; reflexivity|]. split; [vm_compute; reflexivity|].
    eexists. split; [vm_compute; reflexivity|].
    repeat (split; [reflexivity|]). discriminate.
  - repeat split; vm_compute; reflexivity.
Qed.

(** ** Pages of known letters, then a page with a new one *)

Section Scenario.

Variable w : World.


Hypothesis Hquiet : quiet w.



End Scenario.





(** * Further properties *)

(** ** The listing parser, continued *)

(** X1. The loop with its [seen_urls] set computes exactly the candidates
    of the anchors that are the first to resolve to their locator, in
    document order. *)
Theorem parse_letter_list_first_occurrences
        (soup : string -> result (list Anchor)) (html : string)
        (all_links : list Anchor) :
  soup html = Ok all_links ->
  parse_letter_list soup html = Ok (first_occurrence_candidates all_links).
Proof.
  intros H. unfold parse_letter_list. rewrite H.
  rewrite parse_links_first_occurrence_candidates. reflexivity.
Qed.

Lemma parse_letter_list_first_occurrences_witness :
  parse_letter_list demo_soup "<html>" = Ok (first_occurrence_candidates demo_links)
  /\ first_occurrence_candidates demo_links = [labor_letter; housing_letter].
Proof.
  split; [|vm_compute; reflexivity].
  exact (parse_letter_list_first_occurrences demo_soup "<html>" demo_links eq_refl).
Defined.

Lemma contains_app_l p s sub :
  Py.contains s sub = true -> Py.contains (p +:+ s) sub = true.
Proof.
  intros H. induction p as [|c p IH]; [exact H|].
  cbv [String.append]. fold String.append. cbn [Py.contains].
  rewrite IH. apply orb_true_r.
Qed.

Lemma candidate_url_Some link u :
  candidate_url link = Ok (Some u) ->
  Py.startswith u "http" = true
  /\ Py.contains u "economic-letter" = true
  /\ Py.contains u "/page/" = false
  /\ Py.endswith u "/economic-letter/" = false
  /\ Py.endswith u "/economic-letter" = false.
Proof.
  unfold candidate_url. intros H. apply rbind_Ok in H as (href & _ & H).
  destruct (Py.truthy href); cbn [negb orb] in H; [|discriminate].
  destruct (Py.contains href "economic-letter") eqn:Hm; cbn [negb] in H; [|discriminate].
  destruct (Py.startswith href "http") eqn:Hh; cbn [negb] in H.
  - destruct (Py.contains href "/page/") eqn:E0; [discriminate|].
    destruct (Py.endswith href "/economic-letter/") eqn:E1; [discriminate|].
    destruct (Py.endswith href "/economic-letter") eqn:E2; [discriminate|].
    injection H as <-. auto.
  - destruct (Py.contains (site_origin +:+ href) "/page/") eqn:E0; [discriminate|].
    destruct (Py.endswith (site_origin +:+ href) "/economic-letter/") eqn:E1;
      [discriminate|].
    destruct (Py.endswith (site_origin +:+ href) "/economic-letter") eqn:E2;
      [discriminate|].
    injection H as <-. split; [reflexivity|].
    split; [apply contains_app_l, Hm|]. auto.
Qed.

(** X2. Every candidate returned by [parse_letter_list] has an absolute
    locator that contains [economic-letter], is not a pagination link
    (no [/page/]) and is not the listing root (does not end with
    [/economic-letter] or [/economic-letter/]). *)
Theorem parse_letter_list_locators
        (soup : string -> result (list Anchor)) (html : string)
        (letters : list LetterData) (l : LetterData) :
  parse_letter_list soup html = Ok letters ->
  l ∈ letters ->
  Py.startswith (url l) "http" = true
  /\ Py.contains (url l) "economic-letter" = true
  /\ Py.contains (url l) "/page/" = false
  /\ Py.endswith (url l) "/economic-letter/" = false
  /\ Py.endswith (url l) "/economic-letter" = false.
Proof.
  intros Hp Hl. destruct (parse_letter_list_inv _ _ _ Hp) as [_ Hall].
  destruct (Hall l Hl) as (all_links & i & link & _ & (_ & Hc & _) & _).
  apply candidate_url_Some in Hc. exact Hc.
Qed.

Lemma parse_letter_list_locators_witness :
  parse_letter_list demo_soup "<html>" = Ok [labor_letter; housing_letter]
  /\ Py.startswith (url labor_letter) "http" = true
  /\ Py.contains (url labor_letter) "/page/" = false.
Proof.
  assert (Hp : parse_letter_list demo_soup "<html>" = Ok [labor_letter; housing_letter])
    by reflexivity.
  split; [exact Hp|].
  pose proof (parse_letter_list_locators demo_soup "<html>" _ labor_letter Hp
                (list_elem_of_here _ _)) as (H1 & _ & H3 & _).
  split; assumption.
Defined.

(** X3. Every candidate returned by [parse_letter_list] has a title that
    has at least 10 characters and is not, ignoring case, one of the two
    boilerplate phrases; its initial body is the
    excerpt when that is non-empty and the title otherwise, so it is never
    empty. *)
Theorem parse_letter_list_titles
        (soup : string -> result (list Anchor)) (html : string)
        (letters : list LetterData) (l : LetterData) :
  parse_letter_list soup html = Ok letters ->
  l ∈ letters ->
  10 <= Py.len (title l)
  /\ Py.lower (title l) <> "read the economic letter"
  /\ Py.lower (title l) <> "economic letter"
  /\ content l = summary_or_title (summary l) (title l)
  /\ content l <> "".
Proof.
  intros Hp Hl. destruct (parse_letter_list_inv _ _ _ Hp) as [_ Hall].
  destruct (Hall l Hl) as (all_links & i & link & _ & _ & Hc).
  apply link_candidate_Some in Hc as (_ & _ & Hr & _ & Hcontent).
  assert (Hok : ~ (title l = "" \/ Py.len (title l) < 10
                   \/ Py.lower (title l) = "read the economic letter"
                   \/ Py.lower (title l) = "economic letter")).
  { rewrite <- title_rejected_spec. congruence. }
  split; [lia|]. split; [tauto|]. split; [tauto|]. split; [exact Hcontent|].
  rewrite Hcontent. unfold summary_or_title.
  destruct (summary l) as [s|]; [destruct s; cbn [Py.truthy]|]; try discriminate;
    tauto.
Qed.

Lemma parse_letter_list_titles_witness :
  parse_letter_list demo_soup "<html>" = Ok [labor_letter; housing_letter]
  /\ 10 <= Py.len (title housing_letter)
  /\ content housing_letter <> "".
Proof.
  assert (Hp : parse_letter_list demo_soup "<html>" = Ok [labor_letter; housing_letter])
    by reflexivity.
  split; [exact Hp|].
  pose proof (parse_letter_list_titles demo_soup "<html>" _ housing_letter Hp
                (list_elem_of_further _ _ _ (list_elem_of_here _ _)))
    as (H1 & _ & _ & _ & H5).
  split; assumption.
Defined.

(** ** The table, continued *)

Lemma grows_trans t1 t2 t3 : grows t1 t2 -> grows t2 t3 -> grows t1 t3.
Proof.
  intros H12 H23. induction H23 as [|t2 t3 ti u d s c H23 IH Hfresh].
  - exact H12.
  - apply grows_step; auto.
Qed.

Lemma grows_one t ti u d s c :
  url_in_table u t = false -> grows t (t ++ [new_row t ti u d s c]).
Proof. intros H. apply grows_step; [apply grows_refl | exact H]. Qed.

Lemma grows_prefix t t' : grows t t' -> t `prefix_of` t'.
Proof.
  induction 1 as [|t t' ti u d s c H IH Hfresh]; [reflexivity|].
  etrans; [exact IH|]. apply prefix_app_r. reflexivity.
Qed.

Lemma grows_urls_unique t t' : grows t t' -> urls_unique t -> urls_unique t'.
Proof.
  unfold urls_unique.
  induction 1 as [|t t' ti u d s c H IH Hfresh]; intros Hnd; [exact Hnd|].
  rewrite fmap_app. apply NoDup_app. split; [auto|]. split.
  - intros x Hx Hx'. cbn in Hx'. apply list_elem_of_singleton in Hx' as ->.
    apply list_elem_of_fmap in Hx as (row & Hu & Hrow).
    assert (url_in_table u t' = true) by (apply url_in_table_elem; eauto).
    congruence.
  - cbn. apply NoDup_singleton.
Qed.

Lemma grows_ids_sequential t t' : grows t t' -> ids_sequential t -> ids_sequential t'.
Proof.
  unfold ids_sequential.
  induction 1 as [|t t' ti u d s c H IH Hfresh]; intros Hids; [exact Hids|].
  rewrite fmap_app, (IH Hids), length_app. cbn [length fmap list_fmap new_row row_id].
  rewrite seq_app, fmap_app. cbn [seq fmap list_fmap]. do 2 f_equal. lia.
Qed.

Lemma other_insert_grows t l : grows t (other_insert t l).
Proof.
  unfold other_insert. destruct (url_in_table (url l) t) eqn:H.
  - apply grows_refl.
  - apply grows_one, H.
Qed.

Lemma other_step_grows s o : grows s.1 (other_step s o).1.
Proof.
  destruct s as [t lk], o as [l|]; unfold other_step; cbn [fst snd];
    [|apply grows_refl].
  destruct lk; [apply grows_refl|].
  destruct (url_in_table (url l) t); [apply grows_refl | apply other_insert_grows].
Qed.

Lemma fold_other_step_grows os s : grows s.1 (fold_left other_step os s).1.
Proof.
  revert s. induction os as [|o os IH]; intros s; cbn [fold_left].
  - apply grows_refl.
  - eapply grows_trans; [apply other_step_grows | apply IH].
Qed.

Lemma after_suspend_grows w st : grows (table st) (table (after_suspend w st)).
Proof. apply (fold_other_step_grows _ (table st, locked st)). Qed.

Lemma new_letters_prefix t t' letters :
  t `prefix_of` t' -> new_letters t' letters `sublist_of` new_letters t letters.
Proof.
  intros Hpre. induction letters as [|l letters IH]; [constructor|].
  unfold new_letters. cbn [List.filter]. fold (new_letters t letters) (new_letters t' letters).
  destruct (url_in_table (url l) t) eqn:Hk.
  - rewrite (url_in_table_prefix _ _ _ Hpre Hk). exact IH.
  - destruct (url_in_table (url l) t'); cbn [negb].
    + apply sublist_cons, IH.
    + apply sublist_skip, IH.
Qed.

Lemma new_letters_elem t letters l :
  l ∈ new_letters t letters <-> l ∈ letters /\ url_in_table (url l) t = false.
Proof.
  unfold new_letters. rewrite !list_elem_of_In, filter_In, negb_true_iff.
  reflexivity.
Qed.

Lemma contents_fetched_app t t' :
  contents_fetched (t ++ t') = contents_fetched t ++ contents_fetched t'.
Proof. apply omap_app. Qed.

Lemma url_not_in_prefix u t t' :
  t `prefix_of` t' -> url_in_table u t' = false -> url_in_table u t = false.
Proof.
  intros Hpre H. destruct (url_in_table u t) eqn:Hk; [|reflexivity].
  rewrite (url_in_table_prefix _ _ _ Hpre Hk) in H. discriminate H.
Qed.

(** ** What the loops log *)

Lemma fetch_then_insert_app t t' :
  fetch_then_insert t -> fetch_then_insert t' -> fetch_then_insert (t ++ t').
Proof.
  intros H H'. induction H; cbn [app]; [exact H'|..]; constructor; assumption.
Qed.

Lemma new_on_pages_cons w t p pages :
  new_on_pages w t (p :: pages)
  = (url <$> new_letters t (page_letters w p)) ++ new_on_pages w t pages.
Proof. reflexivity. Qed.

Lemma new_on_pages_prefix w t t' pages :
  t `prefix_of` t' -> new_on_pages w t' pages `sublist_of` new_on_pages w t pages.
Proof.
  intros Hpre. induction pages as [|p pages IH]; [constructor|].
  rewrite !new_on_pages_cons. apply sublist_app; [|exact IH].
  apply fmap_sublist, new_letters_prefix, Hpre.
Qed.

Section Events.

Variable w : World.

Lemma ingest_letters_events letters : forall count st r st',
  ingest_letters w letters count st = (r, st') ->
  exists evs,
    trace st' = trace st ++ evs
    /\ pages_visited evs = []
    /\ grows (table st) (table st')
    /\ (forall row, row ∈ rows_inserted evs ->
          exists l tbl, l ∈ letters
                        /\ url_in_table (url l) (table st) = false
                        /\ row = row_of_letter tbl (stored_letter w l))
    /\ contents_fetched evs `sublist_of` (url <$> new_letters (table st) letters)
    /\ fetch_then_insert evs.
Proof.
  induction letters as [|l rest IH]; intros count st r st' E.
  { cbn in E. injection E as <- <-. exists []. rewrite app_nil_r.
    split; [reflexivity|]. split; [reflexivity|]. split; [apply grows_refl|].
    split; [intros row H; apply elem_of_nil in H as []|].
    split; constructor. }
  rewrite ingest_letters_cons in E.
  unfold new_letters. cbn [List.filter]. fold (new_letters (table st) rest).
  destruct (url_in_table (url l) (table st)) eqn:Hknown; cbn [negb].
  { destruct (IH _ _ _ _ E) as (evs & Ht & Hpg & Hg & Hrows & Hsub & Hfti).
    exists evs. split; [exact Ht|]. split; [exact Hpg|]. split; [exact Hg|].
    split; [|split; assumption].
    intros row Hrow. destruct (Hrows row Hrow) as (l' & tbl & Hl' & Hnew & Heq).
    exists l', tbl. split; [apply list_elem_of_further, Hl' | auto]. }
  cbv zeta in E.
  set (st1 := after_suspend w (with_event (GetContent (url l)) st)) in *.
  assert (Hg1 : grows (table st) (table st1))
    by apply (after_suspend_grows w (with_event (GetContent (url l)) st)).
  assert (Ht1 : trace st1 = trace st ++ [GetContent (url l)]) by reflexivity.
  destruct (locked st1) eqn:Hlock.
  { injection E as <- <-.
    exists [GetContent (url l); InsertBlocked (url l)].
    cbn [with_event trace table]. rewrite Ht1, <- app_assoc.
    split; [reflexivity|]. split; [reflexivity|]. split; [exact Hg1|].
    split; [intros row H; cbn in H; apply elem_of_nil in H as []|].
    split; [|repeat constructor].
    cbn. apply sublist_skip, sublist_nil_l. }
  destruct (url_in_table (url l) (table st1)) eqn:Hrace.
  { injection E as <- <-.
    exists [GetContent (url l); InsertRejected (url l)].
    cbn [with_lock with_event trace table]. rewrite Ht1, <- app_assoc.
    split; [reflexivity|]. split; [reflexivity|]. split; [exact Hg1|].
    split; [intros row H; cbn in H; apply elem_of_nil in H as []|].
    split; [|repeat constructor].
    cbn. apply sublist_skip, sublist_nil_l. }
  set (row := row_of_letter (table st1) (stored_letter w l)) in *.
  assert (Hu : row_url row = url l) by apply url_stored_letter.
  destruct (IH _ _ _ _ E) as (evs & Ht & Hpg & Hg & Hrows & Hsub & Hfti).
  cbn [with_row trace table] in Ht, Hg, Hrows, Hsub.
  assert (Hg2 : grows (table st) (table st1 ++ [row])).
  { eapply grows_trans; [exact Hg1|]. unfold row, row_of_letter.
    apply grows_one. rewrite url_stored_letter. exact Hrace. }
  exists (GetContent (url l) :: Inserted row :: evs).
  split. { rewrite Ht, Ht1, <- !app_assoc. reflexivity. }
  split. { exact Hpg. }
  split. { eapply grows_trans; eassumption. }
  split.
  { intros row' H. cbn in H. apply elem_of_cons in H as [->|H].
    - exists l, (table st1). split; [apply list_elem_of_here|]. auto.
    - destruct (Hrows row' H) as (l' & tbl & Hl' & Hnew & Heq).
      exists l', tbl. split; [apply list_elem_of_further, Hl'|].
      split; [|exact Heq].
      eapply url_not_in_prefix; [apply grows_prefix, Hg2 | exact Hnew]. }
  split.
  { change (contents_fetched (GetContent (url l) :: Inserted row :: evs))
      with (url l :: contents_fetched evs).
    rewrite fmap_cons. apply sublist_skip.
    etrans; [exact Hsub|]. apply fmap_sublist, new_letters_prefix.
    apply grows_prefix, Hg2. }
  rewrite <- Hu. apply fti_inserted, Hfti.
Qed.

Lemma fetch_more_loop_events attempts : forall cp total st r st',
  fetch_more_loop w attempts cp total st = (r, st') ->
  exists evs,
    trace st' = trace st ++ evs
    /\ grows (table st) (table st')
    /\ (forall row, row ∈ rows_inserted evs ->
          exists p l tbl, p ∈ pages_visited evs
                          /\ l ∈ page_letters w p
                          /\ url_in_table (url l) (table st) = false
                          /\ row = row_of_letter tbl (stored_letter w l))
    /\ contents_fetched evs `sublist_of` new_on_pages w (table st) (pages_visited evs)
    /\ fetch_then_insert evs.
Proof.
  induction attempts as [|a rest IH]; intros cp total st r st' E.
  { cbn in E. injection E as <- <-. exists []. rewrite app_nil_r.
    split; [reflexivity|]. split; [apply grows_refl|].
    split; [intros row H; apply elem_of_nil in H as []|].
    split; constructor. }
  rewrite fetch_more_loop_cons in E. cbv zeta in E.
  set (p := cp + a + 1) in *.
  set (st1 := after_suspend w (with_event (GetPage p) st)) in *.
  assert (Hg1 : grows (table st) (table st1))
    by apply (after_suspend_grows w (with_event (GetPage p) st)).
  assert (Ht1 : trace st1 = trace st ++ [GetPage p]) by reflexivity.
  destruct (page_letters w p) as [|l ls] eqn:Hpage.
  { injection E as <- <-. exists [GetPage p].
    split; [exact Ht1|]. split; [exact Hg1|].
    split; [intros row H; apply elem_of_nil in H as []|].
    split; [apply sublist_nil_l | repeat constructor]. }
  destruct (ingest_letters w (l :: ls) 0 st1) as [ri st2] eqn:Ei.
  apply ingest_letters_events in Ei
    as (evs_i & Ht2 & Hpg2 & Hg2 & Hrows2 & Hsub2 & Hfti2).
  set (evs1 := GetPage p :: evs_i).
  assert (Ht : trace st2 = trace st ++ evs1).
  { rewrite Ht2, Ht1, <- app_assoc. reflexivity. }
  assert (Hpages1 : pages_visited evs1 = [p]).
  { change (pages_visited evs1) with (p :: pages_visited evs_i).
    rewrite Hpg2. reflexivity. }
  assert (Hg : grows (table st) (table st2)) by (eapply grows_trans; eassumption).
  assert (Hrows : forall row, row ∈ rows_inserted evs1 ->
             exists l' tbl, l' ∈ page_letters w p
                            /\ url_in_table (url l') (table st) = false
                            /\ row = row_of_letter tbl (stored_letter w l')).
  { intros row H. destruct (Hrows2 row H) as (l' & tbl & Hl' & Hnew & Heq).
    exists l', tbl. rewrite Hpage. split; [exact Hl'|]. split; [|exact Heq].
    eapply url_not_in_prefix; [apply grows_prefix, Hg1 | exact Hnew]. }
  assert (Hcont : contents_fetched evs1
                    `sublist_of` (url <$> new_letters (table st) (page_letters w p))).
  { change (contents_fetched evs1) with (contents_fetched evs_i). rewrite Hpage.
    etrans; [exact Hsub2|]. apply fmap_sublist, new_letters_prefix.
    apply grows_prefix, Hg1. }
  assert (Hfti : fetch_then_insert evs1) by (apply fti_page, Hfti2).
  assert (Hdone : forall r0 : result (FetchResponse + Z),
             (r0, st2) = (r, st') ->
             exists evs,
               trace st' = trace st ++ evs
               /\ grows (table st) (table st')
               /\ (forall row, row ∈ rows_inserted evs ->
                     exists p' l' tbl, p' ∈ pages_visited evs
                                       /\ l' ∈ page_letters w p'
                                       /\ url_in_table (url l') (table st) = false
                                       /\ row = row_of_letter tbl (stored_letter w l'))
               /\ contents_fetched evs
                    `sublist_of` new_on_pages w (table st) (pages_visited evs)
               /\ fetch_then_insert evs).
  { intros r0 [= _ <-]. exists evs1. rewrite Hpages1.
    split; [exact Ht|]. split; [exact Hg|]. split.
    - intros row H. destruct (Hrows row H) as (l' & tbl & H').
      exists p, l', tbl. split; [apply list_elem_of_here | exact H'].
    - split; [|exact Hfti].
      rewrite new_on_pages_cons. unfold new_on_pages at 1. cbn [fmap list_fmap concat].
      rewrite app_nil_r. exact Hcont. }
  destruct ri as [added|e]; [|exact (Hdone _ E)].
  destruct (0 <? added); [exact (Hdone _ E)|]. clear Hdone.
  destruct (IH _ _ _ _ _ E) as (evs_r & Ht3 & Hg3 & Hrows3 & Hcont3 & Hfti3).
  exists (evs1 ++ evs_r).
  split. { rewrite Ht3, Ht, <- app_assoc. reflexivity. }
  split. { eapply grows_trans; eassumption. }
  rewrite pages_visited_app, rows_inserted_app, contents_fetched_app, Hpages1.
  split.
  { intros row H. apply elem_of_app in H as [H|H].
    - destruct (Hrows row H) as (l' & tbl & H').
      exists p, l', tbl. split; [apply list_elem_of_here | exact H'].
    - destruct (Hrows3 row H) as (p' & l' & tbl & Hp' & Hl' & Hnew & Heq).
      exists p', l', tbl. split; [apply list_elem_of_further; exact Hp'|].
      split; [exact Hl'|]. split; [|exact Heq].
      eapply url_not_in_prefix; [apply grows_prefix, Hg | exact Hnew]. }
  split.
  { change ([p] ++ pages_visited evs_r) with (p :: pages_visited evs_r).
    rewrite new_on_pages_cons. apply sublist_app; [exact Hcont|].
    etrans; [exact Hcont3|]. apply new_on_pages_prefix, grows_prefix, Hg. }
  apply fetch_then_insert_app; assumption.
Qed.

End Events.

(** ** The endpoints, continued *)

Lemma truthy_nonempty s : Py.truthy s = true -> s <> "".
Proof. destruct s; [discriminate | discriminate]. Qed.

Lemma page_letters_content_nonempty w page l :
  l ∈ page_letters w page -> content l <> "".
Proof.
  unfold page_letters.
  destruct (client_get w (page_url w page)) as [html|e]; cbn [rbind];
    [|intros H; apply elem_of_nil in H as []].
  destruct (parse_letter_list (soup_links w) html) as [letters|e] eqn:Hp;
    [|intros H; apply elem_of_nil in H as []].
  intros Hl. destruct (parse_letter_list_inv _ _ _ Hp) as [_ Hall].
  destruct (Hall l Hl) as (all_links & i & link & _ & _ & Hc).
  apply link_candidate_Some in Hc as (_ & _ & Hr & _ & ->).
  unfold summary_or_title.
  assert (Ht : title l <> "").
  { intros E. assert (title_rejected (title l) = true); [|congruence].
    apply title_rejected_spec. auto. }
  destruct (summary l) as [s|]; [|exact Ht].
  destruct (Py.truthy s) eqn:Hs; [apply truthy_nonempty, Hs | exact Ht].
Qed.

Lemma stored_row_fields w tbl l :
  row_url (row_of_letter tbl (stored_letter w l)) = url l
  /\ row_title (row_of_letter tbl (stored_letter w l)) = title l
  /\ row_publication_date (row_of_letter tbl (stored_letter w l)) = publication_date l
  /\ row_summary (row_of_letter tbl (stored_letter w l)) = summary l
  /\ row_content (row_of_letter tbl (stored_letter w l))
     = (if Py.truthy (letter_content w (url l))
        then letter_content w (url l) else content l).
Proof.
  unfold stored_letter. destruct (Py.truthy (letter_content w (url l)));
    cbn; auto.
Qed.

Section Runs.

Variable w : World.

Lemma fetch_new_letters_run st :
  exists r st',
    ingest_letters w (page_letters w 1) 0
                   (after_suspend w (with_event (GetPage 1) (begin st))) = (r, st')
    /\ (fetch_new_letters w (begin st)).2 = st'
    /\ (fetch_new_letters w (begin st)).1
       = match r with
         | Ok n => Http200 {| new_count := n;
                              message := if 0 <? n then added_message n
                                         else "No new letters found" |}
         | Raise e => Http500 e
         end.
Proof.
  rewrite fetch_new_letters_eq.
  destruct (ingest_letters w (page_letters w 1) 0 _) as [[n|e] st'];
    eexists _, _; repeat split; reflexivity.
Qed.

Lemma fetch_more_letters_run request st :
  exists r st',
    fetch_more_loop w (range max_attempts) (current_page request) 0 (begin st) = (r, st')
    /\ (fetch_more_letters w request (begin st)).2 = st'
    /\ (fetch_more_letters w request (begin st)).1
       = match r with
         | Ok (inl resp) => Http200 resp
         | Ok (inr t) =>
             Http200 {| new_count := t;
                        message := if t =? 0 then checked_message else added_message t |}
         | Raise e => Http500 e
         end.
Proof.
  rewrite fetch_more_letters_eq.
  destruct (fetch_more_loop w (range max_attempts) (current_page request) 0 (begin st))
    as [[[resp|t]|e] st']; eexists _, _; repeat split; reflexivity.
Qed.

(** What [run_fetch_more] does for any starting page: nothing when the
    page is rejected. *)
Lemma run_fetch_more_cases s st :
  (s < 1 /\ run_fetch_more w s (begin st) = (Http422, begin st))
  \/ (1 <= s
      /\ run_fetch_more w s (begin st)
         = fetch_more_letters w {| current_page := s |} (begin st)).
Proof.
  unfold run_fetch_more, post_fetch_more, validate_FetchMoreRequest.
  destruct (1 <=? s) eqn:H.
  - right. apply Z.leb_le in H. auto.
  - left. apply Z.leb_gt in H. auto.
Qed.

End Runs.

(** X4. Every row that [run_fetch_new] inserts is a candidate of listing
    page 1 that was not in the table when the call began: the title, locator,
    period and excerpt are the candidate's; the body is the text of the detail
    page when that is non-empty and the candidate's initial body otherwise, and
    it is never empty. *)
Theorem run_fetch_new_rows_from_candidates (w : World) (st : State) (row : Row) :
  row ∈ rows_inserted (trace (run_fetch_new w (begin st)).2) ->
  exists l,
    l ∈ page_letters w 1
    /\ url_in_table (url l) (table st) = false
    /\ row_url row = url l
    /\ row_title row = title l
    /\ row_publication_date row = publication_date l
    /\ row_summary row = summary l
    /\ row_content row = (if Py.truthy (letter_content w (url l))
                          then letter_content w (url l) else content l)
    /\ row_content row <> "".
Proof.
  unfold run_fetch_new.
  destruct (fetch_new_letters_run w st) as (r & st' & E & -> & _).
  set (st1 := after_suspend w (with_event (GetPage 1) (begin st))) in *.
  apply ingest_letters_events in E as (evs & Ht & _ & _ & Hrows & _).
  rewrite Ht. change (trace st1) with [GetPage 1].
  change (rows_inserted ([GetPage 1] ++ evs)) with (rows_inserted evs).
  intros Hrow. destruct (Hrows row Hrow) as (l & tbl & Hl & Hnew & ->).
  exists l. split; [exact Hl|]. split.
  { eapply url_not_in_prefix; [|exact Hnew].
    apply (after_suspend_prefix w (with_event (GetPage 1) (begin st))). }
  destruct (stored_row_fields w tbl l) as (H1 & H2 & H3 & H4 & H5).
  repeat (split; [assumption|]). rewrite H5.
  destruct (Py.truthy (letter_content w (url l))) eqn:Hc.
  - apply truthy_nonempty, Hc.
  - eapply page_letters_content_nonempty, Hl.
Qed.

Lemma run_fetch_new_rows_from_candidates_witness :
  rows_inserted (trace (run_fetch_new history_world (begin empty_store)).2)
  = [row_of_letter [] labor_letter]
  /\ exists l,
       l ∈ page_letters history_world 1
       /\ url_in_table (url l) (table empty_store) = false
       /\ row_url (row_of_letter [] labor_letter) = url l
       /\ row_title (row_of_letter [] labor_letter) = title l
       /\ row_publication_date (row_of_letter [] labor_letter) = publication_date l
       /\ row_summary (row_of_letter [] labor_letter) = summary l
       /\ row_content (row_of_letter [] labor_letter)
          = (if Py.truthy (letter_content history_world (url l))
             then letter_content history_world (url l) else content l)
       /\ row_content (row_of_letter [] labor_letter) <> "".
Proof.
  assert (E : rows_inserted (trace (run_fetch_new history_world (begin empty_store)).2)
              = [row_of_letter [] labor_letter]) by (vm_compute; reflexivity).
  split; [exact E|].
  apply (run_fetch_new_rows_from_candidates history_world empty_store).
  rewrite E. apply list_elem_of_here.
Defined.

(** X5. Every row that [fetch_more_letters] inserts is a candidate of one
    of the listing pages it fetched, not in the table when the call began,
    stored with the candidate's title, locator, period and excerpt and with a
    non-empty body: the text of the detail page when that is non-empty, the
    candidate's initial body otherwise. *)
Theorem fetch_more_rows_from_candidates
        (w : World) (request : FetchMoreRequest) (st : State) (row : Row) :
  row ∈ rows_inserted (trace (fetch_more_letters w request (begin st)).2) ->
  exists p l,
    p ∈ pages_visited (trace (fetch_more_letters w request (begin st)).2)
    /\ l ∈ page_letters w p
    /\ url_in_table (url l) (table st) = false
    /\ row_url row = url l
    /\ row_title row = title l
    /\ row_publication_date row = publication_date l
    /\ row_summary row = summary l
    /\ row_content row = (if Py.truthy (letter_content w (url l))
                          then letter_content w (url l) else content l)
    /\ row_content row <> "".
Proof.
  destruct (fetch_more_letters_run w request st) as (r & st' & E & -> & _).
  apply fetch_more_loop_events in E as (evs & Ht & _ & Hrows & _).
  cbn [begin trace app] in Ht. rewrite Ht.
  intros Hrow. destruct (Hrows row Hrow) as (p & l & tbl & Hp & Hl & Hnew & ->).
  exists p, l. split; [exact Hp|]. split; [exact Hl|]. split; [exact Hnew|].
  destruct (stored_row_fields w tbl l) as (H1 & H2 & H3 & H4 & H5).
  repeat (split; [assumption|]). rewrite H5.
  destruct (Py.truthy (letter_content w (url l))) eqn:Hc.
  - apply truthy_nonempty, Hc.
  - eapply page_letters_content_nonempty, Hl.
Qed.

Lemma fetch_more_rows_from_candidates_witness :
  rows_inserted (trace (fetch_more_letters history_world (from_page 2)
                                           (begin empty_store)).2)
  = [row_of_letter [] (set_content wages_letter "Full text on wage growth.")]
  /\ row_content (row_of_letter [] (set_content wages_letter "Full text on wage growth."))
     <> "".
Proof.
  assert (E : rows_inserted (trace (fetch_more_letters history_world (from_page 2)
                                                       (begin empty_store)).2)
              = [row_of_letter [] (set_content wages_letter "Full text on wage growth.")])
    by (vm_compute; reflexivity).
  split; [exact E|].
  destruct (fetch_more_rows_from_candidates history_world (from_page 2) empty_store
              (row_of_letter [] (set_content wages_letter "Full text on wage growth.")))
    as (p & l & H).
  - rewrite E. apply list_elem_of_here.
  - apply H.
Defined.

Lemma run_fetch_new_grows w st :
  grows (table st) (table (run_fetch_new w (begin st)).2).
Proof.
  unfold run_fetch_new.
  destruct (fetch_new_letters_run w st) as (r & st' & E & -> & _).
  apply ingest_letters_events in E as (evs & _ & _ & Hg & _).
  eapply grows_trans; [|exact Hg].
  apply (after_suspend_grows w (with_event (GetPage 1) (begin st))).
Qed.

Lemma run_fetch_more_grows w s st :
  grows (table st) (table (run_fetch_more w s (begin st)).2).
Proof.
  destruct (run_fetch_more_cases w s st) as [[_ ->]|[_ ->]]; [apply grows_refl|].
  destruct (fetch_more_letters_run w {| current_page := s |} st)
    as (r & st' & E & -> & _).
  apply fetch_more_loop_events in E as (evs & _ & Hg & _). exact Hg.
Qed.

(** X6. Both endpoints only append to the table: the rows present when the
    call began are still there, unchanged and in the same positions; no two
    rows share a locator if none did before, and the ids stay 1, 2, ... in
    insertion order if they were. This holds in every world, a call that
    ends in an error included. *)
Theorem endpoints_only_append (w : World) (s : Z) (st : State) :
  (table st `prefix_of` table (run_fetch_new w (begin st)).2
   /\ (urls_unique (table st) -> urls_unique (table (run_fetch_new w (begin st)).2))
   /\ (ids_sequential (table st) ->
       ids_sequential (table (run_fetch_new w (begin st)).2)))
  /\ (table st `prefix_of` table (run_fetch_more w s (begin st)).2
      /\ (urls_unique (table st) -> urls_unique (table (run_fetch_more w s (begin st)).2))
      /\ (ids_sequential (table st) ->
          ids_sequential (table (run_fetch_more w s (begin st)).2))).
Proof.
  pose proof (run_fetch_new_grows w st) as H1.
  pose proof (run_fetch_more_grows w s st) as H2.
  split; (split; [apply grows_prefix; assumption|]);
    (split; [apply grows_urls_unique | apply grows_ids_sequential]); assumption.
Qed.

Lemma endpoints_only_append_witness :
  urls_unique (table middle_two_stored)
  /\ ids_sequential (table middle_two_stored)
  /\ urls_unique (table (run_fetch_more race_world 1 (begin middle_two_stored)).2)
  /\ ids_sequential (table (run_fetch_more race_world 1 (begin middle_two_stored)).2).
Proof.
  assert (Hu : urls_unique (table middle_two_stored)).
  { unfold urls_unique. apply (bool_decide_unpack _). vm_compute. exact I. }
  assert (Hi : ids_sequential (table middle_two_stored)) by reflexivity.
  split; [exact Hu|]. split; [exact Hi|].
  pose proof (proj2 (endpoints_only_append race_world 1 middle_two_stored))
    as (_ & H1 & H2).
  split; [exact (H1 Hu) | exact (H2 Hi)].
Defined.

Lemma new_letters_sublist t letters : new_letters t letters `sublist_of` letters.
Proof.
  induction letters as [|l letters IH]; [constructor|].
  unfold new_letters. cbn [List.filter]. fold (new_letters t letters).
  destruct (negb (url_in_table (url l) t)).
  - apply sublist_skip, IH.
  - apply sublist_cons, IH.
Qed.

(** X7. A detail page is fetched only for a candidate whose locator was
    not in the table when the call began, and the detail pages are fetched in
    the order of the listing: the locators fetched by [run_fetch_new] are,
    in this order and none twice, among the new candidates of page 1, and
    those fetched by [run_fetch_more] are, in this order, among the new
    candidates of the listing pages that the call fetched, page after page. In
    both endpoints every detail fetch is directly followed by the insert
    attempt for the same locator, which commits a row, is rejected or is
    blocked, and there is no insert attempt without its detail fetch. *)
Theorem detail_fetched_only_for_new (w : World) (s : Z) (st : State) :
  (contents_fetched (trace (run_fetch_new w (begin st)).2)
     `sublist_of` (url <$> new_letters (table st) (page_letters w 1))
   /\ NoDup (contents_fetched (trace (run_fetch_new w (begin st)).2))
   /\ fetch_then_insert (trace (run_fetch_new w (begin st)).2))
  /\ (contents_fetched (trace (run_fetch_more w s (begin st)).2)
        `sublist_of` new_on_pages w (table st)
                       (pages_visited (trace (run_fetch_more w s (begin st)).2))
      /\ fetch_then_insert (trace (run_fetch_more w s (begin st)).2)).
Proof.
  split.
  - unfold run_fetch_new.
    destruct (fetch_new_letters_run w st) as (r & st' & E & -> & _).
    set (st1 := after_suspend w (with_event (GetPage 1) (begin st))) in *.
    apply ingest_letters_events in E as (evs & Ht & _ & _ & _ & Hsub & Hfti).
    rewrite Ht. change (trace st1) with [GetPage 1].
    change (contents_fetched ([GetPage 1] ++ evs)) with (contents_fetched evs).
    assert (Hsub' : contents_fetched evs
                      `sublist_of` (url <$> new_letters (table st) (page_letters w 1))).
    { etrans; [exact Hsub|]. apply fmap_sublist, new_letters_prefix.
      apply (after_suspend_prefix w (with_event (GetPage 1) (begin st))). }
    split; [exact Hsub'|]. split; [|apply fti_page, Hfti].
    eapply sublist_NoDup; [|exact Hsub'].
    eapply sublist_NoDup; [apply (page_letters_inv w 1)|].
    apply fmap_sublist, new_letters_sublist.
  - destruct (run_fetch_more_cases w s st) as [[_ ->]|[_ ->]].
    + cbn. split; constructor.
    + destruct (fetch_more_letters_run w {| current_page := s |} st)
        as (r & st' & E & -> & _).
      apply fetch_more_loop_events in E as (evs & Ht & _ & _ & Hcont & Hfti).
      cbn [begin trace table app] in Ht, Hcont. rewrite Ht. split; assumption.
Qed.

Lemma detail_fetched_only_for_new_witness :
  contents_fetched (trace (run_fetch_more history_world 1 (begin trade_stored)).2)
  = [housing_url]
  /\ new_on_pages history_world (table trade_stored)
       (pages_visited (trace (run_fetch_more history_world 1 (begin trade_stored)).2))
     = [housing_url]
  /\ fetch_then_insert (trace (run_fetch_more history_world 1 (begin trade_stored)).2)
  /\ contents_fetched (trace (run_fetch_new history_world (begin first_two_stored)).2) = [].
Proof.
  split; [vm_compute; reflexivity|]. split; [vm_compute; reflexivity|].
  split; [|vm_compute; reflexivity].
  exact (proj2 (proj2 (detail_fetched_only_for_new history_world 1 trade_stored))).
Defined.

(** ** One invocation at a time *)

Lemma new_letters_snoc_fresh t row l rest :
  url l ∉ url <$> rest -> row_url row = url l ->
  new_letters (t ++ [row]) rest = new_letters t rest.
Proof.
  intros Hfresh Hrow. unfold new_letters. apply List.filter_ext_in. intros l' Hl'.
  rewrite url_in_table_snoc_other; [reflexivity|].
  rewrite Hrow. intros Heq. apply Hfresh. rewrite Heq.
  apply list_elem_of_fmap. exists l'. split; [reflexivity|].
  apply list_elem_of_In, Hl'.
Qed.

Section QuietRuns.

Variable w : World.
Hypothesis Hquiet : quiet w.

(** With nothing else touching the store and no lock left behind, the
    rows inserted by the loop are, in listing order, the candidates that were
    not in the table, and they are all that is added to the table. *)
Lemma ingest_letters_quiet_rows letters : forall count st,
  locked st = false ->
  NoDup (url <$> letters) ->
  exists st' evs,
    ingest_letters w letters count st
    = (Ok (count + Z.of_nat (length (rows_inserted evs))), st')
    /\ trace st' = trace st ++ evs
    /\ locked st' = false
    /\ table st' = table st ++ rows_inserted evs
    /\ row_url <$> rows_inserted evs = url <$> new_letters (table st) letters.
Proof.
  induction letters as [|l rest IH]; intros count st Hlk Hnd.
  { exists st, []. cbn. rewrite Z.add_0_r, !app_nil_r. auto. }
  rewrite fmap_cons in Hnd. apply NoDup_cons in Hnd as [Hfresh Hnd].
  rewrite ingest_letters_cons. unfold new_letters. cbn [List.filter].
  fold (new_letters (table st) rest).
  destruct (url_in_table (url l) (table st)) eqn:Hknown; cbn [negb].
  { apply IH; assumption. }
  cbv zeta.
  set (st1 := after_suspend w (with_event (GetContent (url l)) st)).
  assert (Htbl : table st1 = table st)
    by apply (after_suspend_quiet w (with_event (GetContent (url l)) st) Hquiet).
  assert (Hlk1 : locked st1 = false) by apply (after_suspend_unlocked w Hquiet), Hlk.
  rewrite Hlk1, Htbl, Hknown.
  set (row := row_of_letter (table st) (stored_letter w l)).
  assert (Hrow : row_url row = url l) by apply stored_row_fields.
  destruct (IH (count + 1) (with_row row st1) Hlk1 Hnd)
    as (st' & evs & E & Ht & Hlk' & Htab & Hurls).
  cbn [with_row table trace] in Ht, Htab, Hurls. rewrite Htbl in Htab, Hurls.
  rewrite (new_letters_snoc_fresh _ _ _ _ Hfresh Hrow) in Hurls.
  exists st', (GetContent (url l) :: Inserted row :: evs).
  change (rows_inserted (GetContent (url l) :: Inserted row :: evs))
    with (row :: rows_inserted evs).
  split. { rewrite E. cbn [length]. do 2 f_equal. lia. }
  split. { rewrite Ht. change (trace st1) with (trace st ++ [GetContent (url l)]).
           rewrite <- !app_assoc. reflexivity. }
  split. { exact Hlk'. }
  split. { rewrite Htab, <- app_assoc. reflexivity. }
  rewrite !fmap_cons, Hrow, Hurls. reflexivity.
Qed.


End QuietRuns.

(** X8. With nothing else touching the store during the call and no write
    lock left behind by an earlier rejected insert, [run_fetch_new] answers
    with exactly the number of page-1 candidates that were not in the table
    (and with "No new letters found" when there is none); the rows it inserts
    are those candidates, in listing order, they are all that is added to the
    table, and the call leaves no lock behind. While such a lock is held and
    page 1 has a new candidate, the call answers 500 and adds nothing. *)
Theorem run_fetch_new_counts_new_candidates (w : World) (st : State) :
  quiet w ->
  (locked st = false ->
   (run_fetch_new w (begin st)).1
   = Http200 {| new_count := Z.of_nat (count_new w 1 (table st));
                message := if 0 <? Z.of_nat (count_new w 1 (table st))
                           then added_message (Z.of_nat (count_new w 1 (table st)))
                           else "No new letters found" |}
   /\ table (run_fetch_new w (begin st)).2
      = table st ++ rows_inserted (trace (run_fetch_new w (begin st)).2)
   /\ row_url <$> rows_inserted (trace (run_fetch_new w (begin st)).2)
      = url <$> new_letters (table st) (page_letters w 1)
   /\ locked (run_fetch_new w (begin st)).2 = false)
  /\ (locked st = true ->
      (0 < count_new w 1 (table st))%nat ->
      (run_fetch_new w (begin st)).1 = Http500 OperationalError
      /\ table (run_fetch_new w (begin st)).2 = table st).
Proof.
  intros Hq. unfold run_fetch_new. split.
  - intros Hlk.
    destruct (fetch_new_letters_run w st) as (r & st' & E & -> & ->).
    set (st1 := after_suspend w (with_event (GetPage 1) (begin st))) in *.
    assert (Htbl : table st1 = table st)
      by apply (after_suspend_quiet w (with_event (GetPage 1) (begin st)) Hq).
    assert (Hlk1 : locked st1 = false)
      by apply (after_suspend_unlocked w Hq (GetPage 1) (begin st)), Hlk.
    destruct (ingest_letters_quiet_rows w Hq (page_letters w 1) 0 st1 Hlk1
                (proj1 (page_letters_inv w 1)))
      as (st2 & evs & E2 & Ht & Hlk2 & Htab & Hurls).
    rewrite E in E2. injection E2 as -> ->.
    rewrite Ht, Htab, Htbl in *. change (trace st1) with [GetPage 1].
    change (rows_inserted ([GetPage 1] ++ evs)) with (rows_inserted evs).
    assert (Hn : length (rows_inserted evs) = count_new w 1 (table st)).
    { unfold count_new.
      rewrite <- (length_fmap url (new_letters _ _)), <- Hurls, length_fmap.
      reflexivity. }
    rewrite Hn. cbn [Z.add]. auto.
  - intros Hlk Hpos. rewrite fetch_new_letters_eq.
    set (st1 := after_suspend w (with_event (GetPage 1) (begin st))).
    assert (Htbl : table st1 = table st)
      by apply (after_suspend_quiet w (with_event (GetPage 1) (begin st)) Hq).
    assert (Hlk1 : locked st1 = true).
    { unfold st1. rewrite (after_suspend_quiet_locked w _ Hq). exact Hlk. }
    destruct (ingest_letters_locked w Hq (page_letters w 1) 0 st1 Hlk1) as [H|H].
    + exfalso. unfold count_new in Hpos. rewrite Htbl in H.
      destruct (new_letters (table st) (page_letters w 1)) eqn:Hnl;
        [cbn in Hpos; lia|].
      assert (Hin : l ∈ new_letters (table st) (page_letters w 1))
        by (rewrite Hnl; apply list_elem_of_here).
      apply new_letters_elem in Hin as [Hin Hnew].
      rewrite (H l Hin) in Hnew. discriminate Hnew.
    + destruct H as (st' & E & Htab). rewrite E. cbn [fst snd].
      split; [reflexivity|]. rewrite Htab. exact Htbl.
Qed.

Lemma run_fetch_new_counts_new_candidates_witness :
  (run_fetch_new history_world (begin empty_store)).1
  = Http200 {| new_count := 1; message := added_message 1 |}
  /\ (run_fetch_new history_world (begin first_two_stored)).1
     = Http200 {| new_count := 0; message := "No new letters found" |}
  /\ (run_fetch_new history_world (begin (with_lock empty_store))).1
     = Http500 OperationalError.
Proof.
  split; [|split].
  - exact (proj1 (proj1 (run_fetch_new_counts_new_candidates history_world empty_store
                           (fun _ => eq_refl)) eq_refl)).
  - exact (proj1 (proj1 (run_fetch_new_counts_new_candidates history_world first_two_stored
                           (fun _ => eq_refl)) eq_refl)).
  - refine (proj1 (proj2 (run_fetch_new_counts_new_candidates history_world
                            (with_lock empty_store) (fun _ => eq_refl)) eq_refl _)).
    vm_compute. lia.
Defined.



(** ** Pages that add nothing *)








(** ** The base URL and the page URLs *)








(** ** Looking letters up *)

Lemma find_app_last {A} (f : A -> bool) (l : list A) (x : A) :
  List.find f (l ++ [x])
  = match List.find f l with
    | Some y => Some y
    | None => if f x then Some x else None
    end.
Proof.
  induction l as [|y l IH]; [reflexivity|].
  cbn. destruct (f y); [reflexivity | exact IH].
Qed.

Lemma find_existsb_false {A} (f : A -> bool) (l : list A) :
  existsb f l = false -> List.find f l = None.
Proof.
  induction l as [|y l IH]; [reflexivity|].
  cbn. destruct (f y); [discriminate | exact IH].
Qed.

Lemma ids_sequential_fresh t :
  ids_sequential t -> letter_id_in_table (Z.of_nat (length t) + 1) t = false.
Proof.
  unfold ids_sequential, letter_id_in_table. intros Hids.
  apply not_true_is_false. rewrite existsb_exists.
  intros (r & Hin & He). apply Z.eqb_eq in He.
  assert (Hid : row_id r ∈ row_id <$> t).
  { apply list_elem_of_fmap. exists r. split; [reflexivity|].
    apply list_elem_of_In, Hin. }
  rewrite Hids in Hid. apply list_elem_of_fmap in Hid as (i & Hi & Hseq).
  apply elem_of_seq in Hseq. lia.
Qed.

(** X13. While no write lock is held, an insert for a locator that the
    table does not hold succeeds with the next id and leaves no lock;
    afterwards [letter_exists] answers true, [get_letter_by_url] returns the
    five values as inserted and, the ids being sequential, so does
    [get_letter_by_id] for the returned id; the lookups of other locators are
    unchanged. A second insert for the same locator raises [IntegrityError],
    leaves the table as it is, and leaves the write lock behind. While the lock
    is held, every insert, whatever its locator, raises [OperationalError] and
    changes nothing. *)
Theorem insert_letter_round_trip
        (ti u d : string) (s : option string) (c : string) (st : State) :
  (locked st = false ->
   url_in_table u (table st) = false ->
   (insert_letter ti u d s c st).1 = Ok (Z.of_nat (length (table st)) + 1)
   /\ locked (insert_letter ti u d s c st).2 = false
   /\ url_in_table u (table (insert_letter ti u d s c st).2) = true
   /\ get_letter_by_url u (table (insert_letter ti u d s c st).2)
      = Some (new_row (table st) ti u d s c)
   /\ (ids_sequential (table st) ->
       sqlite_int (Z.of_nat (length (table st)) + 1) = true ->
       get_letter_by_id (Z.of_nat (length (table st)) + 1)
                        (table (insert_letter ti u d s c st).2)
       = Ok (Some (new_row (table st) ti u d s c)))
   /\ (forall u', u' <> u ->
         get_letter_by_url u' (table (insert_letter ti u d s c st).2)
         = get_letter_by_url u' (table st))
   /\ (forall ti' d' s' c',
         (insert_letter ti' u d' s' c' (insert_letter ti u d s c st).2).1
         = Raise IntegrityError
         /\ table (insert_letter ti' u d' s' c' (insert_letter ti u d s c st).2).2
            = table (insert_letter ti u d s c st).2
         /\ locked (insert_letter ti' u d' s' c' (insert_letter ti u d s c st).2).2
            = true))
  /\ (locked st = true ->
      (insert_letter ti u d s c st).1 = Raise OperationalError
      /\ table (insert_letter ti u d s c st).2 = table st
      /\ locked (insert_letter ti u d s c st).2 = true).
Proof.
  split.
  - intros Hlk Hnew. unfold insert_letter at 1 2 3 4 5 6. rewrite Hlk, Hnew.
    cbn [fst snd with_row table locked row_id new_row].
    assert (Hin : url_in_table u (table st ++ [new_row (table st) ti u d s c]) = true).
    { rewrite url_in_table_app. cbn. rewrite String.eqb_refl. apply orb_true_r. }
    split; [reflexivity|]. split; [exact Hlk|]. split; [exact Hin|].
    split; [|split; [|split]].
    + unfold get_letter_by_url. rewrite find_app_last.
      rewrite (find_existsb_false _ _ Hnew). cbn. rewrite String.eqb_refl. reflexivity.
    + intros Hids Hfit. unfold get_letter_by_id. rewrite Hfit, find_app_last.
      rewrite (find_existsb_false _ _ (ids_sequential_fresh _ Hids)).
      cbn. rewrite Z.eqb_refl. reflexivity.
    + intros u' Hne. unfold get_letter_by_url. rewrite find_app_last.
      destruct (List.find _ (table st)); [reflexivity|].
      cbn. apply not_eq_sym, String.eqb_neq in Hne. rewrite Hne. reflexivity.
    + intros ti' d' s' c'. unfold insert_letter.
      rewrite Hlk, Hnew. cbn [snd with_row table locked]. rewrite Hlk, Hin. cbn. auto.
  - intros Hlk. unfold insert_letter. rewrite Hlk. cbn. auto.
Qed.

Lemma insert_letter_round_trip_witness :
  url_in_table wages_url (table first_two_stored) = false
  /\ get_letter_by_url wages_url
       (table (insert_letter "Wage Growth after the Recession" wages_url "2019-07-01"
                             None "Full text." first_two_stored).2)
     = Some (new_row (table first_two_stored) "Wage Growth after the Recession"
                     wages_url "2019-07-01" None "Full text.")
  /\ (insert_letter "Trade and Consumer Prices" trade_url "2018-02-01" None "Full text."
                    (with_lock first_two_stored)).1
     = Raise OperationalError.
Proof.
  assert (H : url_in_table wages_url (table first_two_stored) = false) by reflexivity.
  split; [exact H|]. split.
  - exact (proj1 (proj2 (proj2 (proj2 (proj1 (insert_letter_round_trip
                                  "Wage Growth after the Recession" wages_url "2019-07-01"
                                  None "Full text." first_two_stored) eq_refl H))))).
  - exact (proj1 (proj2 (insert_letter_round_trip
                           "Trade and Consumer Prices" trade_url "2018-02-01"
                           None "Full text." (with_lock first_two_stored)) eq_refl)).
Defined.

(** ** Listing the letters *)

Lemma sort_by_perm {A} (le : A -> A -> bool) (l : list A) : sort_by le l ≡ₚ l.
Proof.
  assert (Hins : forall x k, insert_sorted le x k ≡ₚ x :: k).
  { intros x k. induction k as [|y k IH]; [reflexivity|].
    cbn. destruct (le x y); [reflexivity|].
    rewrite IH. apply Permutation_swap. }
  induction l as [|x l IH]; [reflexivity|].
  cbn. rewrite Hins, IH. reflexivity.
Qed.

Section ListingProperties.

Variable by_date_desc : list Row -> list Row.
Hypothesis by_date_desc_perm : forall t, by_date_desc t ≡ₚ t.

Lemma by_date_desc_length t : length (by_date_desc t) = length t.
Proof. apply Permutation_length, by_date_desc_perm. Qed.

(** X14. [GET /api/letters] with [1 <= limit <= 100] and an [offset >= 0]
    that fits 64 bits answers with the rows from position [offset] on, at most
    [limit] of them, in the order of the query; [total] is the number of rows
    in the table, the number of letters returned is
    [min(limit, max(0, total - offset))], and [has_more] is true exactly when
    rows remain after this page, that is when [offset + limit < total]. An
    [offset] from [2^63] on passes the validation and fails in the query: the
    answer is 500. Other values of [limit] or [offset] are rejected. *)
Theorem get_letters_endpoint_page (limit offset : Z) (table : list Row) :
  (1 <= limit <= 100 -> 0 <= offset < 2 ^ 63 ->
   exists r,
     get_letters_endpoint by_date_desc (Some limit) (Some offset) table = H200 r
     /\ letters r = take (Z.to_nat limit) (drop (Z.to_nat offset) (by_date_desc table))
     /\ total r = Z.of_nat (length table)
     /\ Z.of_nat (length (letters r)) = Z.min limit (Z.max 0 (total r - offset))
     /\ has_more r = (offset + limit <? total r)
     /\ (has_more r = false ->
         letters r = drop (Z.to_nat offset) (by_date_desc table)))
  /\ (1 <= limit <= 100 -> 2 ^ 63 <= offset ->
      get_letters_endpoint by_date_desc (Some limit) (Some offset) table
      = H500 OverflowError)
  /\ (limit < 1 \/ 100 < limit \/ offset < 0 ->
      get_letters_endpoint by_date_desc (Some limit) (Some offset) table = H422).
Proof.
  unfold get_letters_endpoint, get_letters, limit_offset. split; [|split].
  - intros Hl Ho.
    assert (H1 : (1 <=? limit) && (limit <=? 100) && (0 <=? offset) = true).
    { rewrite !andb_true_iff, !Z.leb_le. lia. }
    assert (H2 : (limit <? 0) = false) by (apply Z.ltb_ge; lia).
    assert (H3 : sqlite_int limit && sqlite_int offset = true).
    { unfold sqlite_int. rewrite !andb_true_iff, !Z.leb_le, !Z.ltb_lt. lia. }
    rewrite H1, H2, H3. eexists. split; [reflexivity|].
    cbn [letters total has_more].
    assert (Hlen : Z.of_nat (length (take (Z.to_nat limit)
                                          (drop (Z.to_nat offset) (by_date_desc table))))
                   = Z.min limit (Z.max 0 (Z.of_nat (length table) - offset))).
    { rewrite length_take, length_drop, by_date_desc_length. lia. }
    split; [reflexivity|]. split; [reflexivity|]. split; [exact Hlen|].
    rewrite Hlen. split.
    + destruct (Z.ltb_spec (offset + limit) (Z.of_nat (length table)));
        [apply Z.ltb_lt | apply Z.ltb_ge]; lia.
    + intros Hmore. apply Z.ltb_ge in Hmore. apply take_ge.
      rewrite length_drop, by_date_desc_length. lia.
  - intros Hl Ho.
    assert (H1 : (1 <=? limit) && (limit <=? 100) && (0 <=? offset) = true).
    { rewrite !andb_true_iff, !Z.leb_le. lia. }
    assert (H3 : sqlite_int limit && sqlite_int offset = false).
    { unfold sqlite_int. rewrite !andb_false_iff, !Z.leb_gt, !Z.ltb_ge. lia. }
    rewrite H1, H3. reflexivity.
  - intros H.
    assert (H1 : (1 <=? limit) && (limit <=? 100) && (0 <=? offset) = false).
    { rewrite !andb_false_iff, !Z.leb_gt. lia. }
    rewrite H1. reflexivity.
Qed.

End ListingProperties.

Lemma get_letters_endpoint_page_witness :
  (1 <= 3 <= 100 /\ 0 <= 0 < 2 ^ 63)
  /\ (exists r,
        get_letters_endpoint sample_by_date_desc (Some 3) (Some 0) four_stored = H200 r
        /\ letters r = take (Z.to_nat 3) (drop (Z.to_nat 0) (sample_by_date_desc four_stored))
        /\ total r = Z.of_nat (length four_stored)
        /\ Z.of_nat (length (letters r)) = Z.min 3 (Z.max 0 (total r - 0))
        /\ has_more r = (0 + 3 <? total r)
        /\ (has_more r = false ->
            letters r = drop (Z.to_nat 0) (sample_by_date_desc four_stored)))
  /\ get_letters_endpoint sample_by_date_desc (Some 3) (Some (2 ^ 63)) four_stored
     = H500 OverflowError.
Proof.
  assert (H1 : 1 <= 3 <= 100) by lia. assert (H2 : 0 <= 0 < 2 ^ 63) by lia.
  assert (H3 : 2 ^ 63 <= 2 ^ 63) by lia.
  split; [split; assumption|]. split.
  - exact (proj1 (get_letters_endpoint_page sample_by_date_desc (sort_by_perm _)
                    3 0 four_stored) H1 H2).
  - exact (proj1 (proj2 (get_letters_endpoint_page sample_by_date_desc (sort_by_perm _)
                           3 (2 ^ 63) four_stored)) H1 H3).
Defined.

(** ** The questions *)


Lemma elem_of_filter {A} (f : A -> bool) (l : list A) (x : A) :
  x ∈ List.filter f l <-> x ∈ l /\ f x = true.
Proof. rewrite !list_elem_of_In. apply filter_In. Qed.



Lemma get_letter_by_id_Some letter_id t letter :
  get_letter_by_id letter_id t = Ok (Some letter) ->
  letter ∈ t /\ row_id letter = letter_id
  /\ letter_id_in_table letter_id t = true
  /\ sqlite_int letter_id = true.
Proof.
  unfold get_letter_by_id, letter_id_in_table.
  destruct (sqlite_int letter_id); [|discriminate]. intros [= H].
  apply find_some in H as [Hin He].
  split; [apply list_elem_of_In, Hin|]. split; [apply Z.eqb_eq, He|].
  split; [|reflexivity]. apply existsb_exists. eauto.
Qed.

Lemma get_letter_by_id_None letter_id t :
  sqlite_int letter_id = true ->
  get_letter_by_id letter_id t = Ok None <-> letter_id_in_table letter_id t = false.
Proof.
  unfold get_letter_by_id, letter_id_in_table. intros ->. split.
  - intros [= H]. apply not_true_is_false. rewrite existsb_exists.
    intros (r & Hin & He). apply (find_none _ _ H) in Hin. congruence.
  - intros H. rewrite (find_existsb_false _ _ H). reflexivity.
Qed.

Lemma get_letter_by_id_overflow letter_id t :
  sqlite_int letter_id = false -> get_letter_by_id letter_id t = Raise OverflowError.
Proof. unfold get_letter_by_id. intros ->. reflexivity. Qed.







Section QuestionEndpoints.

Variable by_created_at_asc : list QuestionRow -> list QuestionRow.
Hypothesis by_created_at_asc_perm : forall l, by_created_at_asc l ≡ₚ l.
Variable generate_insight : string -> string -> result string.

Lemma get_questions_for_letter_elem letter_id db :
  sqlite_int letter_id = true ->
  exists questions,
    get_questions_for_letter by_created_at_asc letter_id db = Ok questions
    /\ questions ≡ₚ List.filter (fun q => q_letter_id q =? letter_id) (db_questions db)
    /\ forall q, q ∈ questions <-> q ∈ db_questions db /\ q_letter_id q = letter_id.
Proof.
  intros Hfit. unfold get_questions_for_letter. rewrite Hfit.
  eexists. split; [reflexivity|]. split; [apply by_created_at_asc_perm|].
  intros q. rewrite by_created_at_asc_perm, elem_of_filter, Z.eqb_eq. reflexivity.
Qed.

(** X18. [GET /api/letters/{letter_id}] with an id that fits 64 bits answers
    404 exactly when no letter has that id; with any other id the query
    cannot be run and the answer is 500. An answer 200 carries a letter of
    that id and the questions of that letter: each of them once, none of
    another letter. *)
Theorem get_letter_detail_spec (letter_id : Z) (db : Db) :
  (sqlite_int letter_id = true ->
   (get_letter_detail by_created_at_asc letter_id db = H404 <->
    letter_id_in_table letter_id (db_letters db) = false))
  /\ (sqlite_int letter_id = false ->
      get_letter_detail by_created_at_asc letter_id db = H500 OverflowError)
  /\ (forall letter questions,
        get_letter_detail by_created_at_asc letter_id db = H200 (letter, questions) ->
        letter ∈ db_letters db
        /\ row_id letter = letter_id
        /\ questions ≡ₚ List.filter (fun q => q_letter_id q =? letter_id) (db_questions db)
        /\ (forall q, q ∈ questions <->
                      q ∈ db_questions db /\ q_letter_id q = letter_id)).
Proof.
  unfold get_letter_detail. split; [|split].
  - intros Hfit. rewrite <- (get_letter_by_id_None _ _ Hfit).
    destruct (get_questions_for_letter_elem letter_id db Hfit) as (qs & -> & _).
    destruct (get_letter_by_id letter_id (db_letters db)) as [[l|]|e];
      split; congruence.
  - intros Hfit. rewrite (get_letter_by_id_overflow _ _ Hfit). reflexivity.
  - intros letter questions.
    destruct (get_letter_by_id letter_id (db_letters db)) as [[l|]|e] eqn:E;
      [|discriminate|discriminate].
    apply get_letter_by_id_Some in E as (Hin & Hid & _ & Hfit).
    destruct (get_questions_for_letter_elem letter_id db Hfit) as (qs & -> & Hp & Hq).
    intros [= -> <-]. auto.
Qed.


(** X20. A call of [POST /api/letters/{letter_id}/questions] that does not
    answer 200 stores nothing: a question that is empty or longer than 5000
    characters is rejected (422), an unknown letter gives 404, and a letter
    id that does not fit 64 bits or a failure of the model gives 500, each
    with the database as it was. *)
Theorem submit_question_failure_stores_nothing
        (now : string) (letter_id : Z) (question : string) (db : Db) :
  ((forall resp,
      (submit_question by_created_at_asc generate_insight now letter_id question db).1
      <> H200 resp) ->
   (submit_question by_created_at_asc generate_insight now letter_id question db).2 = db)
  /\ (Py.len question < 1 \/ 5000 < Py.len question ->
      submit_question by_created_at_asc generate_insight now letter_id question db
      = (H422, db))
  /\ (1 <= Py.len question <= 5000 ->
      sqlite_int letter_id = true ->
      letter_id_in_table letter_id (db_letters db) = false ->
      submit_question by_created_at_asc generate_insight now letter_id question db
      = (H404, db))
  /\ (1 <= Py.len question <= 5000 ->
      sqlite_int letter_id = false ->
      submit_question by_created_at_asc generate_insight now letter_id question db
      = (H500 OverflowError, db))
  /\ (forall letter e,
        1 <= Py.len question <= 5000 ->
        get_letter_by_id letter_id (db_letters db) = Ok (Some letter) ->
        generate_insight (row_content letter) question = Raise e ->
        submit_question by_created_at_asc generate_insight now letter_id question db
        = (H500 e, db)).
Proof.
  unfold submit_question. split; [|split; [|split; [|split]]].
  - destruct ((1 <=? Py.len question) && (Py.len question <=? 5000)); [|reflexivity].
    destruct (get_letter_by_id letter_id (db_letters db)) as [[letter|]|e0] eqn:Hl;
      [|reflexivity|reflexivity].
    destruct (generate_insight (row_content letter) question) as [ans|e]; [|reflexivity].
    apply get_letter_by_id_Some in Hl as (_ & _ & Hfk & Hfit).
    unfold insert_question. rewrite Hfk.
    match goal with
    | |- context [get_questions_for_letter _ _ ?d] =>
        destruct (get_questions_for_letter_elem letter_id d Hfit) as (qs & -> & _)
    end.
    cbn [fst snd]. intros H. exfalso. eapply H. reflexivity.
  - intros H.
    assert (Hv : (1 <=? Py.len question) && (Py.len question <=? 5000) = false).
    { rewrite andb_false_iff, !Z.leb_gt. lia. }
    rewrite Hv. reflexivity.
  - intros H Hfit Hno.
    assert (Hv : (1 <=? Py.len question) && (Py.len question <=? 5000) = true).
    { rewrite andb_true_iff, !Z.leb_le. lia. }
    apply (get_letter_by_id_None _ _ Hfit) in Hno. rewrite Hv, Hno. reflexivity.
  - intros H Hfit.
    assert (Hv : (1 <=? Py.len question) && (Py.len question <=? 5000) = true).
    { rewrite andb_true_iff, !Z.leb_le. lia. }
    rewrite Hv, (get_letter_by_id_overflow _ _ Hfit). reflexivity.
  - intros letter e H Hl He.
    assert (Hv : (1 <=? Py.len question) && (Py.len question <=? 5000) = true).
    { rewrite andb_true_iff, !Z.leb_le. lia. }
    rewrite Hv, Hl, He. reflexivity.
Qed.

End QuestionEndpoints.


Lemma get_letter_detail_spec_witness :
  get_letter_detail sample_by_created_at_asc 2 sample_db
  = H200 (new_row (table_of [labor_letter]) "Housing Supply Constraints" housing_url ""
                  None "Housing Supply Constraints",
          [ {| q_id := 3; q_letter_id := 2; q_question := "Why is supply low?";
               q_answer := "Zoning."; q_created_at := "2024-04-02 09:30:00" |} ])
  /\ get_letter_detail sample_by_created_at_asc 9 sample_db = H404
  /\ get_letter_detail sample_by_created_at_asc (2 ^ 63) sample_db = H500 OverflowError.
Proof.
  split; [vm_compute; reflexivity|]. split.
  - exact (proj2 (proj1 (get_letter_detail_spec sample_by_created_at_asc
                           (sort_by_perm _) 9 sample_db) eq_refl) eq_refl).
  - exact (proj1 (proj2 (get_letter_detail_spec sample_by_created_at_asc
                           (sort_by_perm _) (2 ^ 63) sample_db)) eq_refl).
Defined.


Lemma submit_question_failure_stores_nothing_witness :
  submit_question sample_by_created_at_asc failing_llm "2024-05-01 12:00:00" 1
                  "What about wages?" sample_db
  = (H500 OtherException, sample_db)
  /\ submit_question sample_by_created_at_asc sample_llm "2024-05-01 12:00:00" 1
                     "" sample_db
     = (H422, sample_db)
  /\ submit_question sample_by_created_at_asc sample_llm "2024-05-01 12:00:00" (2 ^ 63)
                     "What about wages?" sample_db
     = (H500 OverflowError, sample_db).
Proof.
  assert (Hlen : 1 <= Py.len "What about wages?" <= 5000) by (vm_compute; split; discriminate).
  split; [|split].
  - exact (proj2 (proj2 (proj2 (proj2 (submit_question_failure_stores_nothing
                                  sample_by_created_at_asc (sort_by_perm _) failing_llm
                                  "2024-05-01 12:00:00" 1 "What about wages?" sample_db))))
                 _ OtherException Hlen eq_refl eq_refl).
  - apply (proj1 (proj2 (submit_question_failure_stores_nothing
                           sample_by_created_at_asc (sort_by_perm _) sample_llm
                           "2024-05-01 12:00:00" 1 "" sample_db))).
    left. vm_compute. reflexivity.
  - exact (proj1 (proj2 (proj2 (proj2 (submit_question_failure_stores_nothing
                                  sample_by_created_at_asc (sort_by_perm _) sample_llm
                                  "2024-05-01 12:00:00" (2 ^ 63) "What about wages?"
                                  sample_db))))
                 Hlen eq_refl).
Defined.
